(** * bpanel web application: plugin runtime, socket constants and footer

    A shallow embedding of
      - [webapp/plugins/plugins.js]          (module [Plugins]),
      - the sockets constants namespace      (module [Sockets]),
      - [webapp/store/constants/index.js]    (module [Constants]),
      - [webapp/components/Footer/Footer.js] (module [Footer]),
    followed by the registries of the plugin runtime written as functions
    of the configuration (module [Registered]), by sample plugins (module
    [Samples]), by the properties that the specification states and by
    further properties of the same code.

    JavaScript values are a first-order datatype.  Functions supplied by
    plugins and by the host are Rocq functions in a small
    state-and-exception monad whose state is the browser console.  The
    module-level [let] variables of [plugins.js] are the fields of one
    record, read and written by the exported functions.  The objects that
    the module uses as dictionaries are finite maps over their own keys;
    where the code looks a key up that a configuration, a plugin or a
    caller chooses, the members that every object inherits from
    [Object.prototype] are found as well ([lookup_key]).  A plugin module
    is a record with one optional field per export of the plugin contract,
    a function or an object as the contract has it, and the list of what
    else the module exports.

    Of the part of [plugins.js] that wraps React components, module
    [Decoration] embeds what does not depend on React: the loop of
    [getDecorated] over the loaded plugins and its cache, the [onRef]
    method and the [ref] callback of [exposeDecorated], and the error
    state of the class that [decorate] returns.  The creation of elements
    is not embedded. *)

From Stdlib Require Import ZArith String Ascii List Floats DecimalString.
From stdpp Require Import gmap strings list.

Set Warnings "-register-all,-inexact-float".


(* ===================================================================== *)
(** * JavaScript values and effects                                       *)
(* ===================================================================== *)

Module JS.

(** Own enumerable properties of an object are kept in insertion order,
    the order in which [for ... in] visits them. *)
Inductive value : Type :=
| VUndefined
| VNull
| VBool (b : bool)
| VNumber (n : float)
| VString (s : string)
| VObject (props : list (string * value))
| VArray (items : list value)
| VFunction (ident : string).

(** [typeof v] *)
Definition typeof (v : value) : string :=
  match v with
  | VUndefined => "undefined"
  | VNull => "object"
  | VBool _ => "boolean"
  | VNumber _ => "number"
  | VString _ => "string"
  | VObject _ => "object"
  | VArray _ => "object"
  | VFunction _ => "function"
  end.

(** [Boolean(v)], the test performed by [if (v)] and [!v]. *)
Definition truthy (v : value) : bool :=
  match v with
  | VUndefined | VNull => false
  | VBool b => b
  | VNumber n => negb (PrimFloat.is_zero n || PrimFloat.is_nan n)
  | VString s => negb (String.eqb s EmptyString)
  | VObject _ | VArray _ | VFunction _ => true
  end.

(** The character that delimits string literals, for the messages that
    quote a plugin name. *)
Definition dquote : string := String (ascii_of_nat 34) EmptyString.

(** [`${x}`] for a value that is either a string or [undefined]. *)
Definition template (x : option string) : string :=
  match x with
  | Some s => s
  | None => "undefined"
  end.

(** The object thrown by the engine on an illegal property access or
    call; the message text is the engine's and is kept short here. *)
Definition TypeError (msg : string) : value :=
  VObject [("name", VString "TypeError"); ("message", VString msg)].

(** [new Error(msg)] *)
Definition Error (msg : string) : value :=
  VObject [("name", VString "Error"); ("message", VString msg)].

(** Own property lookup in an object literal. *)
Fixpoint assoc (k : string) (props : list (string * value)) : option value :=
  match props with
  | [] => None
  | (k', v) :: rest => if String.eqb k k' then Some v else assoc k rest
  end.

(** [obj[k] = v] on the own properties: an existing key keeps its place,
    a new key goes last. *)
Fixpoint assoc_set (k : string) (v : value) (props : list (string * value))
  : list (string * value) :=
  match props with
  | [] => [(k, v)]
  | (k', v') :: rest =>
      if String.eqb k k' then (k, v) :: rest else (k', v') :: assoc_set k v rest
  end.

(** ** Outcomes and the state-and-exception monad *)

Inductive outcome (A : Type) : Type :=
| Return (a : A)
| Throw (e : value).
Arguments Return {A} a.
Arguments Throw {A} e.

(** A computation over a state [S]: the state survives a [throw], as the
    effects of a JavaScript function do. *)
Definition M (S A : Type) : Type := S -> outcome A * S.

Definition ret {S A} (a : A) : M S A := fun s => (Return a, s).

Definition throw {S A} (e : value) : M S A := fun s => (Throw e, s).

Definition bind {S A B} (c : M S A) (k : A -> M S B) : M S B :=
  fun s =>
    match c s with
    | (Return a, s') => k a s'
    | (Throw e, s') => (Throw e, s')
    end.

(** [try { body } catch (e) { handler e }] *)
Definition try_catch {S A} (body : M S A) (handler : value -> M S A) : M S A :=
  fun s =>
    match body s with
    | (Return a, s') => (Return a, s')
    | (Throw e, s') => handler e s'
    end.

Definition get {S} : M S S := fun s => (Return s, s).

Definition modify {S} (f : S -> S) : M S unit := fun s => (Return tt, f s).

(** [array.reduce(step, init)] with an effectful callback. *)
Fixpoint reduce {S A B} (step : A -> B -> M S A) (l : list B) (init : A) : M S A :=
  match l with
  | [] => ret init
  | x :: rest => bind (step init x) (fun acc => reduce step rest acc)
  end.

(** [array.map(f)] with an effectful callback. *)
Fixpoint mapM {S A B} (f : A -> M S B) (l : list A) : M S (list B) :=
  match l with
  | [] => ret []
  | x :: rest => bind (f x) (fun y => bind (mapM f rest) (fun ys => ret (y :: ys)))
  end.

(** ** The console *)

(** One entry per call of [console.error], holding its arguments. *)
Definition console : Type := list (list value).

(** Functions supplied by plugins and by the host may log and throw. *)
Abbreviation eff := (M console).

(** [err.stack]: reading a property of [undefined] or [null] is a
    [TypeError]; an object yields its own [stack] property; any other
    primitive, array or function has none. *)
Definition member_stack (err : value) : outcome value :=
  match err with
  | VUndefined | VNull =>
      Throw (TypeError "Cannot read properties of undefined or null (reading 'stack')")
  | VObject props =>
      Return (match assoc "stack" props with Some v => v | None => VUndefined end)
  | _ => Return VUndefined
  end.

Definition of_outcome {S A} (o : outcome A) : M S A := fun s => (o, s).

(** ** Object.assign *)

(** Array indices and string positions as property keys. *)
Definition index_key (i : nat) : string := NilZero.string_of_uint (Nat.to_uint i).

Definition indexed (l : list value) : list (string * value) :=
  imap (fun i v => (index_key i, v)) l.

(** The own enumerable properties that [Object.assign] copies from a
    source: those of an object, the elements of an array, the characters
    of a string, none for any other value. *)
Definition own_enumerable (source : value) : list (string * value) :=
  match source with
  | VObject props => props
  | VArray items => indexed items
  | VString s =>
      indexed (map (fun c => VString (String c EmptyString)) (list_ascii_of_string s))
  | _ => []
  end.

(** [Object.assign({}, source)] *)
Definition object_assign_fresh (source : value) : value :=
  VObject (fold_left (fun acc kv => assoc_set (fst kv) (snd kv) acc)
             (own_enumerable source) []).

(** ** Assignment to a property *)

(** [x[key] = v] in the strict code of a module.  The property is set on
    an object; on a function or an array the assignment succeeds as well,
    but the value has no place to keep the property; on anything else it
    is a [TypeError]. *)
Definition set_property (x : value) (key : string) (v : value) : outcome value :=
  match x with
  | VObject props => Return (VObject (assoc_set key v props))
  | VArray _ | VFunction _ => Return x
  | VUndefined | VNull =>
      Throw (TypeError ("Cannot set properties of undefined or null (setting '"
                        +:+ key +:+ "')"))
  | _ => Throw (TypeError ("Cannot create property '" +:+ key +:+ "'"))
  end.

(** ** Object literals used as dictionaries *)

(** The properties that every object literal inherits from
    [Object.prototype].  None of them is enumerable; each holds a
    function, except [__proto__], which yields the prototype itself. *)
Definition prototype_members : list string :=
  ["constructor"; "hasOwnProperty"; "isPrototypeOf"; "propertyIsEnumerable";
   "toLocaleString"; "toString"; "valueOf";
   "__defineGetter__"; "__defineSetter__"; "__lookupGetter__"; "__lookupSetter__";
   "__proto__"].

Definition inherited (key : string) : bool :=
  existsb (String.eqb key) prototype_members.

(** What [Object.prototype] holds under an inherited key. *)
Definition prototype_member (key : string) : value :=
  if String.eqb key "__proto__" then VObject []
  else if String.eqb key "constructor" then VFunction "Object"
  else VFunction ("Object.prototype." +:+ key).

(** What [obj[key]] finds in an object literal whose own properties are
    those of [m]: an own property, a member of [Object.prototype], or
    nothing. *)
Inductive found (A : Type) : Type :=
| Own (a : A)
| Inherited
| Missing.
Arguments Own {A} a.
Arguments Inherited {A}.
Arguments Missing {A}.

Definition lookup_key {A} (m : gmap string A) (key : string) : found A :=
  match m !! key with
  | Some a => Own a
  | None => if inherited key then Inherited else Missing
  end.

End JS.

Import JS.

Notation "'do' x <- c ;; k" := (bind c (fun x => k))
  (at level 10, x name, c at level 99, k at level 200).
Notation "'do_' c ;; k" := (bind c (fun _ => k))
  (at level 10, c at level 99, k at level 200).

(* ===================================================================== *)
(** * Footer component                                                    *)
(* ===================================================================== *)

Module Footer.

Section Render.

(** Theme style values are passed through untouched. *)
Variable style : Type.

(** [Number::toString] of the language, used by [toFixed] only for
    values that are not finite or not below [10^21]. *)
Variable number_to_string : float -> string.

(** [ToNumber] of the language on a string. *)
Variable string_to_number : string -> float.

(** The integer [n] for which [n / 10^f - m * 2^e] is as close to zero
    as possible, the larger one when there are two. *)
Definition scaled_nearest (m : positive) (e : Z) (f : nat) : Z :=
  let num := (Z.pos m * 10 ^ Z.of_nat f)%Z in
  if (0 <=? e)%Z then (num * 2 ^ e)%Z
  else
    let den := (2 ^ (- e))%Z in
    ((2 * num + den) / (2 * den))%Z.

(** [m * 2^e >= 10^21] *)
Definition at_least_1e21 (m : positive) (e : Z) : bool :=
  if (0 <=? e)%Z then (10 ^ 21 <=? Z.pos m * 2 ^ e)%Z
  else (10 ^ 21 * 2 ^ (- e) <=? Z.pos m)%Z.

Fixpoint zeros (k : nat) : string :=
  match k with
  | O => EmptyString
  | S k' => String "0" (zeros k')
  end.

(** The decimal digits of [n] with a point before the last [f] of
    them, padded on the left so that one digit precedes the point. *)
Definition fixed_digits (n : Z) (f : nat) : string :=
  let m := NilZero.string_of_uint (N.to_uint (Z.to_N n)) in
  match f with
  | O => m
  | _ =>
      let k := String.length m in
      let m' := if (k <=? f)%nat then zeros (f + 1 - k) +:+ m else m in
      let k' := String.length m' in
      substring 0 (k' - f) m' +:+ "." +:+ substring (k' - f) f m'
  end.

(** [Number.prototype.toFixed(f)] *)
Definition toFixed (x : float) (f : nat) : string :=
  match Prim2SF x with
  | S754_nan => number_to_string x
  | S754_infinity _ => number_to_string x
  | S754_zero _ => fixed_digits 0 f
  | S754_finite s m e =>
      let sign := if s then "-" else EmptyString in
      if at_least_1e21 m e then sign +:+ number_to_string (PrimFloat.abs x)
      else sign +:+ fixed_digits (scaled_nearest m e f) f
  end.

(** The [progress] prop is declared as a string or a number. *)
Inductive progress_prop : Type :=
| ProgressNumber (n : float)
| ProgressString (s : string).

Definition to_number (p : progress_prop) : float :=
  match p with
  | ProgressNumber n => n
  | ProgressString s => string_to_number s
  end.

Record theme_footer : Type := {
  container : style;
  text : style;
  progress : style
}.

Record props : Type := {
  theme : theme_footer;
  version : string;
  progress_value : progress_prop
}.

(** The rendered tree. *)
Inductive element : Type :=
| Text (s : string)
| Element (tag : string) (className : string) (style_ : option style)
          (children : list element).

Definition render (p : props) : element :=
  let progressPercentage := (to_number (progress_value p) * 100)%float in
  Element "div" "container-fluid" None
    [Element "footer" "row align-items-center" (Some (container (theme p)))
       [Element "div" "container" None
          [Element "div" "row align-items-center" None
             [Element "div" "col-3 version text-truncate" None
                [Element "Text" EmptyString (Some (text (theme p)))
                   [Text (version p)]];
              Element "div" "col-3" (Some (progress (theme p)))
                [Element "Text" EmptyString (Some (text (theme p)))
                   [Text (toFixed progressPercentage 2); Text "% synced"]]]]]].

(** The text a tree displays: its text nodes, left to right. *)
Fixpoint text_content (e : element) : string :=
  match e with
  | Text s => s
  | Element _ _ _ children =>
      (fix go (l : list element) : string :=
         match l with
         | [] => EmptyString
         | c :: rest => text_content c +:+ go rest
         end) children
  end.

(** The element with class [cls] nearest to the root, searched in
    document order. *)
Fixpoint find_class (cls : string) (e : element) : option element :=
  match e with
  | Text _ => None
  | Element _ c _ children =>
      if String.eqb c cls then Some e
      else
        (fix go (l : list element) : option element :=
           match l with
           | [] => None
           | c0 :: rest =>
               match find_class cls c0 with
               | Some r => Some r
               | None => go rest
               end
           end) children
  end.

(** The text shown in the progress column. *)
Definition sync_text (p : props) : string :=
  match find_class "col-3" (render p) with
  | Some e => text_content e
  | None => EmptyString
  end.

End Render.

End Footer.

(* ===================================================================== *)
(** * Constants                                                           *)
(* ===================================================================== *)

Module Sockets.

Section Namespace.

(** The action type imported from the chain namespace. *)
Variable SET_CHAIN_TIP : string.

Definition CONNECT_SOCKET : string := "CONNECT_SOCKET".
Definition DISCONNECT_SOCKET : string := "DISCONNECT_SOCKET".

Definition listener (event actionType : string) : value :=
  VObject [("event", VString event); ("actionType", VString actionType)].

Definition listeners : list value :=
  [listener "new block" SET_CHAIN_TIP].

(** The module namespace object: its exports in declaration order. *)
Definition namespace : value :=
  VObject [("CONNECT_SOCKET", VString CONNECT_SOCKET);
           ("DISCONNECT_SOCKET", VString DISCONNECT_SOCKET);
           ("listeners", VArray listeners)].

End Namespace.

End Sockets.

Module Constants.

(** What the registry imports from files outside this slice: the chain,
    node, plugins and theme namespaces, and the chain-tip action type
    that the sockets namespace imports from the chain namespace. *)
Record imports : Type := {
  SET_CHAIN_TIP : string;
  chain : value;
  node : value;
  plugins : value;
  theme : value
}.

(** The default export. *)
Definition constants (i : imports) : list (string * value) :=
  [("chain", chain i);
   ("node", node i);
   ("plugins", plugins i);
   ("sockets", Sockets.namespace (SET_CHAIN_TIP i));
   ("theme", theme i)].

(** [constants[name]] *)
Definition constants_get (i : imports) (name : string) : value :=
  match assoc name (constants i) with
  | Some v => v
  | None => if inherited name then prototype_member name else VUndefined
  end.

End Constants.

(* ===================================================================== *)
(** * Plugin runtime                                                      *)
(* ===================================================================== *)

Module Plugins.

(** A function object with the two hidden fields that [loadPlugins]
    attaches to every export of a plugin.  A function that was never
    tagged has both fields [undefined]. *)
Record tagged (F : Type) : Type := Tagged {
  fn : F;
  _pluginName : option string;
  _pluginVersion : option string
}.
Arguments Tagged {F} fn _pluginName _pluginVersion.
Arguments fn {F} t.
Arguments _pluginName {F} t.
Arguments _pluginVersion {F} t.

Definition untagged {F} (f : F) : tagged F := Tagged f None None.

(** The store handed to a middleware. *)
Module Store.
Record t : Type := {
  getState : eff value;
  dispatch : value -> eff value
}.
End Store.

(** [(state, acc) -> object] and [(dispatch, acc) -> object] *)
Abbreviation mapper_fn := (value -> value -> eff value) (only parsing).
(** [store => next => action => result] *)
Abbreviation middleware_fn :=
  (Store.t -> (value -> eff value) -> value -> eff value) (only parsing).
(** [(state, action) -> state] *)
Abbreviation reducer_fn := (value -> value -> eff value) (only parsing).
(** [(baseNamespace) -> namespace] *)
Abbreviation transform_fn := (value -> eff value) (only parsing).
(** [(parentProps, acc, ...args) -> object] *)
Abbreviation props_decorator_fn :=
  (value -> value -> list value -> eff value) (only parsing).

(** A plugin module: every export that the plugin contract names is
    optional, and when it is there it is what the contract says:
    [metadata], [getRouteProps] and [decoratePlugin] are objects, every
    other one is a function.  What else the module exports is kept, as
    values, in [others].  The loop that tags the exports assigns
    [_pluginName] and [_pluginVersion] to every own enumerable property of
    the module: on the exports of the contract, functions and objects, the
    assignment succeeds; on one of the [others] it throws when the export
    is [null], [undefined] or a primitive.  The entries of
    [getRouteProps] and [decoratePlugin] are listed in the order in which
    [for ... in] enumerates them.  When the loops of [loadPlugins] run,
    the two objects also carry the properties [_pluginName] and
    [_pluginVersion] that the tagging loop has just put on every export;
    the loops pass over them as they pass over every key that starts with
    an underscore, so they are not listed.  The functions under
    [getRouteProps] and [decoratePlugin] are not exports themselves and
    stay untagged; those under [decoratePlugin] are only handed on to the
    target plugin, never called here, so they are kept as values. *)
Module Plugin.
Record metadata_t : Type := {
  name : option string;
  pluginVersion : option string
}.
Record t : Type := {
  metadata : option metadata_t;
  middleware : option middleware_fn;
  mapPanelState : option mapper_fn;
  mapAppState : option mapper_fn;
  mapPanelDispatch : option mapper_fn;
  mapAppDispatch : option mapper_fn;
  getRouteProps : option (list (string * props_decorator_fn));
  getPanelProps : option props_decorator_fn;
  reduceChain : option reducer_fn;
  reduceNode : option reducer_fn;
  addSocketsConstants : option transform_fn;
  decoratePlugin : option (list (string * value));
  others : list (string * value)
}.
End Plugin.

Module Connector.
Record t : Type := {
  state : list (tagged mapper_fn);
  dispatch : list (tagged mapper_fn)
}.
Definition empty : t := {| state := []; dispatch := [] |}.
End Connector.

Record connectors_t : Type := {
  App : Connector.t;
  Panel : Connector.t
}.

(** The module-level variables.  A variable declared without an
    initialiser is [None] until [loadPlugins] assigns it.  An entry of
    [metadata] under the key [__proto__] is not an own property: the
    assignment [metadata["__proto__"] = plugin.metadata] makes that object
    the prototype of the map, and reading [metadata.__proto__] yields it
    again.  The arrays
    [panelPropsDecorators], [chainReducers] and [nodeReducers] are the
    very arrays stored under [propsDecorators.getPanelProps],
    [reducersDecorators.chainReducer] and
    [reducersDecorators.nodeReducer]; they live in those maps. *)
Record runtime : Type := {
  plugins : option (list (tagged Plugin.t));
  connectors : option connectors_t;
  metadata : gmap string Plugin.metadata_t;
  middlewares : option (list (tagged middleware_fn));
  decorated : gmap string value;
  pluginDecorators : gmap string (list value);
  routePropsDecorators : option (gmap string (list (tagged props_decorator_fn)));
  propsDecorators : gmap string (list (tagged props_decorator_fn));
  reducersDecorators : gmap string (list (tagged reducer_fn));
  extendConstants : gmap string (list (tagged transform_fn))
}.

(** The state of the module right after its evaluation. *)
Definition initial : runtime := {|
  plugins := None;
  connectors := None;
  metadata := ∅;
  middlewares := None;
  decorated := ∅;
  pluginDecorators := ∅;
  routePropsDecorators := None;
  propsDecorators := ∅;
  reducersDecorators := ∅;
  extendConstants := ∅
|}.

Definition panelPropsDecorators (r : runtime) : option (list (tagged props_decorator_fn)) :=
  propsDecorators r !! "getPanelProps".
Definition chainReducers (r : runtime) : option (list (tagged reducer_fn)) :=
  reducersDecorators r !! "chainReducer".
Definition nodeReducers (r : runtime) : option (list (tagged reducer_fn)) :=
  reducersDecorators r !! "nodeReducer".

(** ** Assignments to single variables *)

Definition set_plugins v (r : runtime) : runtime :=
  {| plugins := v; connectors := connectors r; metadata := metadata r;
     middlewares := middlewares r; decorated := decorated r;
     pluginDecorators := pluginDecorators r;
     routePropsDecorators := routePropsDecorators r;
     propsDecorators := propsDecorators r;
     reducersDecorators := reducersDecorators r;
     extendConstants := extendConstants r |}.

Definition set_connectors v (r : runtime) : runtime :=
  {| plugins := plugins r; connectors := v; metadata := metadata r;
     middlewares := middlewares r; decorated := decorated r;
     pluginDecorators := pluginDecorators r;
     routePropsDecorators := routePropsDecorators r;
     propsDecorators := propsDecorators r;
     reducersDecorators := reducersDecorators r;
     extendConstants := extendConstants r |}.

Definition set_metadata v (r : runtime) : runtime :=
  {| plugins := plugins r; connectors := connectors r; metadata := v;
     middlewares := middlewares r; decorated := decorated r;
     pluginDecorators := pluginDecorators r;
     routePropsDecorators := routePropsDecorators r;
     propsDecorators := propsDecorators r;
     reducersDecorators := reducersDecorators r;
     extendConstants := extendConstants r |}.

Definition set_middlewares v (r : runtime) : runtime :=
  {| plugins := plugins r; connectors := connectors r; metadata := metadata r;
     middlewares := v; decorated := decorated r;
     pluginDecorators := pluginDecorators r;
     routePropsDecorators := routePropsDecorators r;
     propsDecorators := propsDecorators r;
     reducersDecorators := reducersDecorators r;
     extendConstants := extendConstants r |}.

Definition set_decorated v (r : runtime) : runtime :=
  {| plugins := plugins r; connectors := connectors r; metadata := metadata r;
     middlewares := middlewares r; decorated := v;
     pluginDecorators := pluginDecorators r;
     routePropsDecorators := routePropsDecorators r;
     propsDecorators := propsDecorators r;
     reducersDecorators := reducersDecorators r;
     extendConstants := extendConstants r |}.

Definition set_pluginDecorators v (r : runtime) : runtime :=
  {| plugins := plugins r; connectors := connectors r; metadata := metadata r;
     middlewares := middlewares r; decorated := decorated r;
     pluginDecorators := v;
     routePropsDecorators := routePropsDecorators r;
     propsDecorators := propsDecorators r;
     reducersDecorators := reducersDecorators r;
     extendConstants := extendConstants r |}.

Definition set_routePropsDecorators v (r : runtime) : runtime :=
  {| plugins := plugins r; connectors := connectors r; metadata := metadata r;
     middlewares := middlewares r; decorated := decorated r;
     pluginDecorators := pluginDecorators r;
     routePropsDecorators := v;
     propsDecorators := propsDecorators r;
     reducersDecorators := reducersDecorators r;
     extendConstants := extendConstants r |}.

Definition set_propsDecorators v (r : runtime) : runtime :=
  {| plugins := plugins r; connectors := connectors r; metadata := metadata r;
     middlewares := middlewares r; decorated := decorated r;
     pluginDecorators := pluginDecorators r;
     routePropsDecorators := routePropsDecorators r;
     propsDecorators := v;
     reducersDecorators := reducersDecorators r;
     extendConstants := extendConstants r |}.

Definition set_reducersDecorators v (r : runtime) : runtime :=
  {| plugins := plugins r; connectors := connectors r; metadata := metadata r;
     middlewares := middlewares r; decorated := decorated r;
     pluginDecorators := pluginDecorators r;
     routePropsDecorators := routePropsDecorators r;
     propsDecorators := propsDecorators r;
     reducersDecorators := v;
     extendConstants := extendConstants r |}.

Definition set_extendConstants v (r : runtime) : runtime :=
  {| plugins := plugins r; connectors := connectors r; metadata := metadata r;
     middlewares := middlewares r; decorated := decorated r;
     pluginDecorators := pluginDecorators r;
     routePropsDecorators := routePropsDecorators r;
     propsDecorators := propsDecorators r;
     reducersDecorators := reducersDecorators r;
     extendConstants := v |}.

(** ** The state of the page: module variables and console *)

Record world : Type := {
  rt : runtime;
  out : console
}.

Definition assign (f : runtime -> runtime) : M world unit :=
  modify (fun w => {| rt := f (rt w); out := out w |}).

Definition read : M world runtime :=
  fun w => (Return (rt w), w).

(** [console.error(...args)] *)
Definition console_error (args : list value) : eff unit :=
  fun c => (Return tt, c ++ [args]).

(** Running a function that can only touch the console. *)
Definition liftc {A} (c : eff A) : M world A :=
  fun w =>
    match c (out w) with
    | (o, c') => (o, {| rt := rt w; out := c' |})
    end.

(** [x.member] or [x.method(...)] where [x] is [undefined]. *)
Definition undefined_access {A} (what : string) : M world A :=
  throw (TypeError ("Cannot read properties of undefined (reading '" +:+ what +:+ "')")).

(** ** loadPlugins *)

(** [key[0] === '_'] *)
Definition is_internal (key : string) : bool :=
  match key with
  | String c _ => Ascii.eqb c "_"
  | EmptyString => false
  end.

(** The registries as [loadPlugins] initialises them; [plugins],
    [metadata], [decorated] and [pluginDecorators] are not assigned. *)
Definition reset (r : runtime) : runtime :=
  {| plugins := plugins r;
     connectors := Some {| App := Connector.empty; Panel := Connector.empty |};
     metadata := metadata r;
     middlewares := Some [];
     decorated := decorated r;
     pluginDecorators := pluginDecorators r;
     routePropsDecorators := Some ∅;
     propsDecorators := {[ "getPanelProps" := [] ]};
     reducersDecorators := {[ "chainReducer" := []; "nodeReducer" := [] ]};
     extendConstants := {[ "sockets" := [] ]} |}.

(** [middlewares.push(m)] *)
Definition push_middleware (m : tagged middleware_fn) : M world unit :=
  do r <- read ;;
  match middlewares r with
  | None => undefined_access "push"
  | Some ms => assign (set_middlewares (Some (ms ++ [m])))
  end.

(** [connectors.Panel.state.push(m)] and its three siblings *)
Definition push_connector (upd : tagged mapper_fn -> connectors_t -> connectors_t)
    (m : tagged mapper_fn) : M world unit :=
  do r <- read ;;
  match connectors r with
  | None => undefined_access "Panel"
  | Some c => assign (set_connectors (Some (upd m c)))
  end.

Definition to_Panel_state (m : tagged mapper_fn) (c : connectors_t) : connectors_t :=
  {| App := App c;
     Panel := {| Connector.state := Connector.state (Panel c) ++ [m];
                 Connector.dispatch := Connector.dispatch (Panel c) |} |}.
Definition to_App_state (m : tagged mapper_fn) (c : connectors_t) : connectors_t :=
  {| App := {| Connector.state := Connector.state (App c) ++ [m];
               Connector.dispatch := Connector.dispatch (App c) |};
     Panel := Panel c |}.
Definition to_Panel_dispatch (m : tagged mapper_fn) (c : connectors_t) : connectors_t :=
  {| App := App c;
     Panel := {| Connector.state := Connector.state (Panel c);
                 Connector.dispatch := Connector.dispatch (Panel c) ++ [m] |} |}.
Definition to_App_dispatch (m : tagged mapper_fn) (c : connectors_t) : connectors_t :=
  {| App := {| Connector.state := Connector.state (App c);
               Connector.dispatch := Connector.dispatch (App c) ++ [m] |};
     Panel := Panel c |}.

(** [if (!obj[key]) obj[key] = []; obj[key].push(x)] on a map of arrays *)
Definition push_at {A} (key : string) (x : A) (m : gmap string (list A))
  : gmap string (list A) :=
  <[ key := default [] (m !! key) ++ [x] ]> m.

(** [obj.key.push(x)] where the array must already be there *)
Definition push_existing {A} (key : string) (x : A) (m : gmap string (list A))
  : option (gmap string (list A)) :=
  match m !! key with
  | Some l => Some (<[ key := l ++ [x] ]> m)
  | None => None
  end.

(** The loop over the keys of [plugin.getRouteProps]. *)
Fixpoint register_route_props (entries : list (string * props_decorator_fn))
  : M world unit :=
  match entries with
  | [] => ret tt
  | (key, f) :: rest =>
      if is_internal key then register_route_props rest
      else
        do r <- read ;;
        match routePropsDecorators r with
        | None => undefined_access key
        | Some m =>
            match lookup_key m key with
            | Inherited =>
                (* the inherited member is truthy and has no [push] *)
                throw (TypeError "routePropsDecorators[key].push is not a function")
            | _ =>
                do_ assign (set_routePropsDecorators
                              (Some (push_at key (untagged f) m))) ;;
                register_route_props rest
            end
        end
  end.

(** The arguments of the [console.error] call for a missing dependency. *)
Definition dependency_message (key : string) (name : option string) : list value :=
  [VString ("Plugin dependency " +:+ dquote +:+ key +:+ dquote
            +:+ " does not exist for " +:+ template name +:+ ".");
   VString ("Please make sure plugin " +:+ dquote +:+ key +:+ dquote
            +:+ " has been added to configs");
   VString ("and is loaded before child plugin " +:+ dquote
            +:+ template name +:+ dquote)].

(** The arguments of the [console.error] call for unreadable metadata. *)
Definition metadata_message (pluginName : string) : list value :=
  [VString ("There was a problem loading the metadata for " +:+ pluginName)].

(** [Boolean(s)] for a property that holds a string or [undefined]. *)
Definition nonempty (s : option string) : bool :=
  match s with
  | Some s => negb (String.eqb s EmptyString)
  | None => false
  end.

(** [Boolean(metadata[key])], for a key that does not start with an
    underscore.  An own entry is a metadata object; a member of
    [Object.prototype] is a function; and once a package called
    [__proto__] has made its metadata object the prototype of the map,
    the [name] and the [pluginVersion] of that object are found too. *)
Definition has_metadata (md : gmap string Plugin.metadata_t) (key : string) : bool :=
  match md !! key with
  | Some _ => true
  | None =>
      inherited key
      || match md !! "__proto__" with
         | Some m =>
             if String.eqb key "name" then nonempty (Plugin.name m)
             else if String.eqb key "pluginVersion" then nonempty (Plugin.pluginVersion m)
             else false
         | None => false
         end
  end.

(** The loop over the keys of [plugin.decoratePlugin]: [true] when it
    runs to its end, [false] when it leaves the callback through the
    bare [return]. *)
Fixpoint register_plugin_decorators (name : option string)
    (entries : list (string * value)) : M world bool :=
  match entries with
  | [] => ret true
  | (key, d) :: rest =>
      if is_internal key then register_plugin_decorators name rest
      else
        do r <- read ;;
        if has_metadata (metadata r) key then
          match lookup_key (pluginDecorators r) key with
          | Inherited =>
              (* the inherited member is truthy and has no [push] *)
              throw (TypeError "pluginDecorators[key].push is not a function")
          | _ =>
              do_ assign (set_pluginDecorators (push_at key d (pluginDecorators r))) ;;
              register_plugin_decorators name rest
          end
        else
          do_ liftc (console_error (dependency_message key name)) ;;
          ret false
  end.

(** A tag as the value that is assigned. *)
Definition tag_value (tag : option string) : value :=
  match tag with
  | Some s => VString s
  | None => VUndefined
  end.

(** The tagging loop on the exports that the contract does not name:
    [plugin[method]._pluginName = name;
     plugin[method]._pluginVersion = pluginVersion]. *)
Fixpoint tag_others (name pluginVersion : option string)
    (exports : list (string * value)) : M world unit :=
  match exports with
  | [] => ret tt
  | (method, export) :: rest =>
      do named <- of_outcome (set_property export "_pluginName" (tag_value name)) ;;
      do_ of_outcome (set_property named "_pluginVersion" (tag_value pluginVersion)) ;;
      tag_others name pluginVersion rest
  end.

(** [if (x) body(x)] for an optional export *)
Definition when_present {A} (x : option A) (body : A -> M world unit) : M world unit :=
  match x with
  | Some a => body a
  | None => ret tt
  end.

(** [arr.push(x)] on one of the arrays kept in a map of the runtime *)
Definition push_in {A} (what : string) (proj : runtime -> gmap string (list A))
    (upd : gmap string (list A) -> runtime -> runtime) (key : string) (x : A)
  : M world unit :=
  do r <- read ;;
  match push_existing key x (proj r) with
  | None => undefined_access what
  | Some m => assign (upd m)
  end.

Section Load.

(** [config.localPlugins] *)
Variable localPlugins : list string.

(** [require('../localPlugins/' + pluginName)]: the module, when there
    is one. *)
Variable require : string -> option Plugin.t.

(** The callback of [config.localPlugins.map]: the plugin, or nothing
    when the callback leaves through its bare [return]. *)
Definition loadPlugin (pluginName : string) : M world (option (tagged Plugin.t)) :=
  do plugin <-
    match require pluginName with
    | Some p => ret p
    | None => throw (Error ("Cannot find module '../localPlugins/" +:+ pluginName +:+ "'"))
    end ;;
  (* try { name = ...; pluginVersion = ...; metadata[pluginName] = ... } *)
  do tags <-
    match Plugin.metadata plugin with
    | Some md =>
        do r <- read ;;
        do_ assign (set_metadata (<[ pluginName := md ]> (metadata r))) ;;
        ret (Plugin.name md, Plugin.pluginVersion md)
    | None =>
        do_ liftc (console_error (metadata_message pluginName)) ;;
        ret (None, None)
    end ;;
  let name := fst tags in
  let pluginVersion := snd tags in
  (* for (const method in plugin) ...: the two assignments succeed on the
     exports of the contract, which are functions and objects, and are
     kept with them; on another export they may throw *)
  let tag {F} (f : F) : tagged F := Tagged f name pluginVersion in
  do_ tag_others name pluginVersion (Plugin.others plugin) ;;
  do_ when_present (Plugin.middleware plugin)
        (fun m => push_middleware (tag m)) ;;
  do_ when_present (Plugin.mapPanelState plugin)
        (fun m => push_connector to_Panel_state (tag m)) ;;
  do_ when_present (Plugin.mapAppState plugin)
        (fun m => push_connector to_App_state (tag m)) ;;
  do_ when_present (Plugin.mapPanelDispatch plugin)
        (fun m => push_connector to_Panel_dispatch (tag m)) ;;
  do_ when_present (Plugin.mapAppDispatch plugin)
        (fun m => push_connector to_App_dispatch (tag m)) ;;
  do_ when_present (Plugin.getRouteProps plugin) register_route_props ;;
  do_ when_present (Plugin.getPanelProps plugin)
        (fun f => push_in "push" propsDecorators set_propsDecorators
                    "getPanelProps" (tag f)) ;;
  do_ when_present (Plugin.reduceChain plugin)
        (fun f => push_in "push" reducersDecorators set_reducersDecorators
                    "chainReducer" (tag f)) ;;
  do_ when_present (Plugin.reduceNode plugin)
        (fun f => push_in "push" reducersDecorators set_reducersDecorators
                    "nodeReducer" (tag f)) ;;
  do_ when_present (Plugin.addSocketsConstants plugin)
        (fun f => push_in "push" extendConstants set_extendConstants
                    "sockets" (tag f)) ;;
  do keep <-
    match Plugin.decoratePlugin plugin with
    | Some entries => register_plugin_decorators name entries
    | None => ret true
    end ;;
  if keep : bool then ret (Some (tag plugin)) else ret None.

(** [.filter(plugin => Boolean(plugin))] *)
Definition filter_loaded (l : list (option (tagged Plugin.t))) : list (tagged Plugin.t) :=
  omap id l.

Definition loadPlugins : M world unit :=
  do_ assign reset ;;
  do results <- mapM loadPlugin localPlugins ;;
  assign (set_plugins (Some (filter_loaded results))).

End Load.

(** [initialMetadata()] *)
Definition initialMetadata : M world (gmap string Plugin.metadata_t) :=
  do r <- read ;; ret (metadata r).

(** ** getConstants *)

Definition getConstants (i : Constants.imports) (name : string) : M world value :=
  do r <- read ;;
  match lookup_key (extendConstants r) name with
  | Missing => undefined_access "reduce"
  | Own transforms =>
      liftc (reduce (fun acc reducer => fn reducer acc) transforms
               (Constants.constants_get i name))
  | Inherited =>
      (* the inherited member has no [reduce] *)
      throw (TypeError "extendConstants[name].reduce is not a function")
  end.

(** ** pluginMiddleware *)

(** [nextMiddleware(remaining)]: [remaining.slice(1)] is the tail. *)
Fixpoint nextMiddleware (store : Store.t) (next : value -> eff value)
    (remaining : list (tagged middleware_fn)) : value -> eff value :=
  fun action_ =>
    match remaining with
    | [] => next action_
    | m :: rest => fn m store (nextMiddleware store next rest) action_
    end.

(** The arrow body is a block without [return]: the result of the chain
    is dropped. *)
Definition pluginMiddleware (store : Store.t) (next : value -> eff value)
    (action : value) : M world value :=
  do r <- read ;;
  match middlewares r with
  | None => undefined_access "length"
  | Some ms =>
      do_ liftc (nextMiddleware store next ms action) ;;
      ret VUndefined
  end.

(** ** getPanelProps and getRouteProps *)

Section Props.

(** [propsReducerCallback] of [./utils], which is outside this slice:
    given the decorator-set name, the parent props and the extra
    arguments, the callback handed to [reduce]. *)
Variable propsReducerCallback :
  string -> value -> list value ->
  value -> tagged props_decorator_fn -> eff value.

(** A parameter with the default [{}]: the default applies when the
    argument is missing or [undefined]. *)
Definition default_props (props : value) : value :=
  match props with
  | VUndefined => VObject []
  | _ => props
  end.

Definition getProps (name : string) (parentProps props : value)
    (fnArgs : list value) : M world value :=
  do r <- read ;;
  match lookup_key (propsDecorators r) name with
  | Missing => undefined_access "reduce"
  | Own decorators =>
      liftc (reduce (propsReducerCallback name parentProps fnArgs) decorators
               (object_assign_fresh (default_props props)))
  | Inherited =>
      (* the inherited member has no [reduce] *)
      throw (TypeError "propsDecorators[name].reduce is not a function")
  end.

Definition getPanelProps (parentProps props : value) : M world value :=
  getProps "getPanelProps" parentProps props [].

Definition getRouteProps (name : string) (parentProps props : value)
    (fnArgs : list value) : M world value :=
  do r <- read ;;
  match routePropsDecorators r with
  | None => undefined_access name
  | Some registry =>
      match lookup_key registry name with
      | Missing => ret parentProps
      | Own decorators =>
          liftc (reduce (propsReducerCallback name parentProps fnArgs) decorators
                   (object_assign_fresh (default_props props)))
      | Inherited =>
          (* the inherited member is truthy and has no [reduce] *)
          throw (TypeError "routePropsDecorators[name].reduce is not a function")
      end
  end.

End Props.

(** ** decorateReducer *)

Section Reducers.

(** [Immutable] of the seamless-immutable library. *)
Variable Immutable : value -> value.

Definition decorateReducer (reducer : reducer_fn) (name : string)
    (state action : value) : M world value :=
  do r <- read ;;
  match lookup_key (reducersDecorators r) name with
  | Missing => undefined_access "reduce"
  | Own decorators =>
      liftc (do init <- reducer state action ;;
             reduce (fun state_ reducer_ => fn reducer_ state_ action)
               decorators (Immutable init))
  | Inherited =>
      (* the inherited member has no [reduce]: the call fails once its
         arguments, [Immutable(reducer(state, action))] among them, have
         been evaluated *)
      liftc (do init <- reducer state action ;;
             throw (TypeError "reducersDecorators[name].reduce is not a function"))
  end.

End Reducers.

(** ** connect: the two functions handed to the store binding *)

(** [connectors[name]] *)
Definition connectors_get (c : connectors_t) (name : string) : option Connector.t :=
  if String.eqb name "App" then Some (App c)
  else if String.eqb name "Panel" then Some (Panel c)
  else None.

(** [!ret || typeof ret !== 'object'] *)
Definition invalid_return (ret : value) : bool :=
  negb (truthy ret) || negb (String.eqb (typeof ret) "object").

(** The arguments of the [console.error] call in the [catch] block. *)
Definition problem_message (name : string) (pluginName : option string)
    (stack : value) : list value :=
  [VString ("Plugin error: Problem with `map" +:+ name +:+ "State` for "
            +:+ template pluginName +:+ ": ");
   stack].

(** The arguments of the [console.error] call for a return value that
    is not an object. *)
Definition invalid_message (name : string) (pluginName : option string) : list value :=
  [VString "Plugin error ";
   VString (template pluginName +:+ ": Invalid return value of `map"
            +:+ name +:+ "State` (object expected).")].

(** The callback of [connectors[name].state.reduce]. *)
Definition connect_state_step (name : string) (state : value)
    (acc : value) (mapper : tagged mapper_fn) : eff value :=
(* let ret = acc; try { ret = mapper(state, acc); } catch (err) { ... } *)
do ret_ <-
  try_catch (fn mapper state acc)
    (fun err =>
       do stack <- of_outcome (member_stack err) ;;
       do_ console_error (problem_message name (_pluginName mapper) stack) ;;
       ret acc) ;;
if invalid_return ret_ then
  do_ console_error (invalid_message name (_pluginName mapper)) ;;
  ret VUndefined
else ret ret_.

(** The callback of [connectors[name].dispatch.reduce]; it differs from
    the one above in the name of its first parameter only, and its
    messages say [map<name>State] as well. *)
Definition connect_dispatch_step (name : string) (dispatch : value)
    (acc : value) (mapper : tagged mapper_fn) : eff value :=
  do ret_ <-
    try_catch (fn mapper dispatch acc)
      (fun err =>
         do stack <- of_outcome (member_stack err) ;;
         do_ console_error (problem_message name (_pluginName mapper) stack) ;;
         ret acc) ;;
  if invalid_return ret_ then
    do_ console_error (invalid_message name (_pluginName mapper)) ;;
    ret VUndefined
  else ret ret_.

(** [() => ({})], the default of [stateFn] and [dispatchFn] *)
Definition default_fn : value -> eff value := fun _ => ret (VObject []).

(** The first argument of [reduxConnect]: [stateFn] is [None] when
    [connect] was called without it. *)
Definition connect_state (stateFn : option (value -> eff value)) (name : string)
    (state : value) : M world value :=
  do r <- read ;;
  match connectors r with
  | None => undefined_access name
  | Some c =>
      match connectors_get c name with
      | None => undefined_access "state"
      | Some k =>
          liftc (do init <- default default_fn stateFn state ;;
                 reduce (connect_state_step name state) (Connector.state k) init)
      end
  end.

(** The second argument of [reduxConnect]. *)
Definition connect_dispatch (dispatchFn : option (value -> eff value)) (name : string)
    (dispatch : value) : M world value :=
  do r <- read ;;
  match connectors r with
  | None => undefined_access name
  | Some c =>
      match connectors_get c name with
      | None => undefined_access "dispatch"
      | Some k =>
          liftc (do init <- default default_fn dispatchFn dispatch ;;
                 reduce (connect_dispatch_step name dispatch) (Connector.dispatch k) init)
      end
  end.

End Plugins.

(* ===================================================================== *)
(** * The registries as functions of the configuration                    *)
(* ===================================================================== *)

Module Registered.

Import Plugins.

(** The functions of this module say what a load that returns leaves: a
    load whose modules all resolve ([resolvable]), whose plugins export
    functions and objects only and in which no key under which a plugin
    files decorators is a member of [Object.prototype] ([plain]).  For
    such keys the code finds what the
    own keys of the maps hold, and that is how the maps are looked up
    here; lemma [loadPlugins_run] relates these functions to the code. *)

Section Config.

Variable require : string -> option Plugin.t.

(** The tags that [loadPlugins] attaches to the exports of [p]. *)
Definition tag_of (p : Plugin.t) {F} (f : F) : tagged F :=
  match Plugin.metadata p with
  | Some md => Tagged f (Plugin.name md) (Plugin.pluginVersion md)
  | None => Tagged f None None
  end.

(** What the plugin configured under [pluginName] adds to the registry
    fed by the export [proj]. *)
Definition exported {F} (proj : Plugin.t -> option F) (pluginName : string)
  : list (tagged F) :=
  match require pluginName with
  | Some p => option_list (tag_of p <$> proj p)
  | None => []
  end.

(** The route entries of the plugin configured under [pluginName]. *)
Definition route_entries (pluginName : string) : list (string * props_decorator_fn) :=
  match require pluginName with
  | Some p => default [] (Plugin.getRouteProps p)
  | None => []
  end.

Definition add_route (m : gmap string (list (tagged props_decorator_fn)))
    (kv : string * props_decorator_fn) : gmap string (list (tagged props_decorator_fn)) :=
  if is_internal (fst kv) then m else push_at (fst kv) (untagged (snd kv)) m.

(** [metadata] once the plugin configured under [pluginName] has been
    read. *)
Definition metadata_after (md : gmap string Plugin.metadata_t) (pluginName : string)
  : gmap string Plugin.metadata_t :=
  match require pluginName with
  | Some p =>
      match Plugin.metadata p with
      | Some m => <[ pluginName := m ]> md
      | None => md
      end
  | None => md
  end.

(** The module variables after the plugins [loaded] have gone through
    the callback of [loadPlugins], with [md] and [pd] for [metadata]
    and [pluginDecorators]. *)
Definition registered (loaded : list string) (r0 : runtime)
    (md : gmap string Plugin.metadata_t) (pd : gmap string (list value)) : runtime :=
  {| plugins := plugins r0;
     connectors :=
       Some {| App := {| Connector.state := flat_map (exported Plugin.mapAppState) loaded;
                         Connector.dispatch := flat_map (exported Plugin.mapAppDispatch) loaded |};
               Panel := {| Connector.state := flat_map (exported Plugin.mapPanelState) loaded;
                           Connector.dispatch := flat_map (exported Plugin.mapPanelDispatch) loaded |} |};
     metadata := md;
     middlewares := Some (flat_map (exported Plugin.middleware) loaded);
     decorated := decorated r0;
     pluginDecorators := pd;
     routePropsDecorators := Some (fold_left add_route (flat_map route_entries loaded) ∅);
     propsDecorators := {[ "getPanelProps" := flat_map (exported Plugin.getPanelProps) loaded ]};
     reducersDecorators :=
       {[ "chainReducer" := flat_map (exported Plugin.reduceChain) loaded;
          "nodeReducer" := flat_map (exported Plugin.reduceNode) loaded ]};
     extendConstants := {[ "sockets" := flat_map (exported Plugin.addSocketsConstants) loaded ]} |}.

(** The first target of a [decoratePlugin] object, in enumeration
    order, that has no entry in [md]; internal keys are passed over. *)
Fixpoint first_missing (md : gmap string Plugin.metadata_t)
    (entries : list (string * value)) : option string :=
  match entries with
  | [] => None
  | (key, _) :: rest =>
      if is_internal key then first_missing md rest
      else
        match md !! key with
        | None => Some key
        | Some _ => first_missing md rest
        end
  end.

(** [pluginDecorators] once the loop over a [decoratePlugin] object is
    left: the decorators of the targets that precede the first missing
    one have been pushed. *)
Fixpoint plugin_decorators_after (md : gmap string Plugin.metadata_t)
    (entries : list (string * value)) (pd : gmap string (list value))
  : gmap string (list value) :=
  match entries with
  | [] => pd
  | (key, d) :: rest =>
      if is_internal key then plugin_decorators_after md rest pd
      else
        match md !! key with
        | None => pd
        | Some _ => plugin_decorators_after md rest (push_at key d pd)
        end
  end.

(** The [decoratePlugin] entries of the plugin configured under
    [pluginName]. *)
Definition dependencies (pluginName : string) : list (string * value) :=
  match require pluginName with
  | Some p => default [] (Plugin.decoratePlugin p)
  | None => []
  end.

(** The [name] of its metadata. *)
Definition declared_name (pluginName : string) : option string :=
  match require pluginName with
  | Some p => _pluginName (tag_of p p)
  | None => None
  end.

(** The dependency that makes the callback drop the plugin, [md] being
    [metadata] when the callback starts. *)
Definition missing_dependency (md : gmap string Plugin.metadata_t)
    (pluginName : string) : option string :=
  first_missing (metadata_after md pluginName) (dependencies pluginName).

(** What the callback returns for [pluginName]. *)
Definition load_result (md : gmap string Plugin.metadata_t) (pluginName : string)
  : option (tagged Plugin.t) :=
  match require pluginName with
  | Some p =>
      match missing_dependency md pluginName with
      | None => Some (tag_of p p)
      | Some _ => None
      end
  | None => None
  end.

(** What the callback writes to the console for [pluginName]. *)
Definition load_log (md : gmap string Plugin.metadata_t) (pluginName : string)
  : list (list value) :=
  match require pluginName with
  | Some p =>
      match Plugin.metadata p with
      | Some _ => []
      | None => [metadata_message pluginName]
      end
  | None => []
  end
  ++ match missing_dependency md pluginName with
     | Some key => [dependency_message key (declared_name pluginName)]
     | None => []
     end.

(** The same for a list of plugin names gone through in order. *)
Fixpoint load_results (md : gmap string Plugin.metadata_t) (names : list string)
  : list (option (tagged Plugin.t)) :=
  match names with
  | [] => []
  | pluginName :: rest =>
      load_result md pluginName :: load_results (metadata_after md pluginName) rest
  end.

Fixpoint load_logs (md : gmap string Plugin.metadata_t) (names : list string)
  : list (list value) :=
  match names with
  | [] => []
  | pluginName :: rest =>
      load_log md pluginName ++ load_logs (metadata_after md pluginName) rest
  end.

Fixpoint plugin_decorators_loaded (md : gmap string Plugin.metadata_t)
    (pd : gmap string (list value)) (names : list string) : gmap string (list value) :=
  match names with
  | [] => pd
  | pluginName :: rest =>
      plugin_decorators_loaded (metadata_after md pluginName)
        (plugin_decorators_after (metadata_after md pluginName)
           (dependencies pluginName) pd)
        rest
  end.

(** The module variables when [loadPlugins] returns, for a runtime
    [r] before the call. *)
Definition loaded (names : list string) (r : runtime) : runtime :=
  set_plugins (Some (omap id (load_results (metadata r) names)))
    (registered names r
       (fold_left metadata_after names (metadata r))
       (plugin_decorators_loaded (metadata r) (pluginDecorators r) names)).

(** Every configured module can be resolved. *)
Definition resolvable (names : list string) : Prop :=
  Forall (fun pluginName => is_Some (require pluginName)) names.

(** The keys under which a plugin files decorators are no members of
    [Object.prototype]: neither a route of its [getRouteProps] nor a
    target of its [decoratePlugin], internal keys apart. *)
Definition plain_key {A} (kv : string * A) : bool :=
  is_internal (fst kv) || negb (inherited (fst kv)).

(** An export on which the tagging loop can set a property: a function
    or an object. *)
Definition taggable (export : string * value) : bool :=
  match snd export with
  | VObject _ | VArray _ | VFunction _ => true
  | _ => false
  end.

(** A plugin that stays clear of [Object.prototype] and whose every
    export is a function or an object. *)
Definition plain_keys (p : Plugin.t) : bool :=
  forallb plain_key (default [] (Plugin.getRouteProps p))
  && forallb plain_key (default [] (Plugin.decoratePlugin p))
  && forallb taggable (Plugin.others p).

(** The same for the plugin configured under [pluginName], whose package
    is not called [__proto__]. *)
Definition plain_package (pluginName : string) : bool :=
  negb (String.eqb pluginName "__proto__")
  && match require pluginName with
     | Some p => plain_keys p
     | None => true
     end.

(** A plain configuration: it stays clear of [Object.prototype] (no
    package is called [__proto__], no route and no decorated plugin is
    named like a member of it), its plugins export functions and objects
    only, and it is loaded on a page where no load has given the metadata
    map another prototype. *)
Definition plain (names : list string) (md : gmap string Plugin.metadata_t) : Prop :=
  md !! "__proto__" = None /\ forallb plain_package names = true.

End Config.

(** [pd'] has every array of [pd], possibly with more elements pushed. *)
Definition extends (pd pd' : gmap string (list value)) : Prop :=
  forall k l, pd !! k = Some l -> exists l', pd' !! k = Some (l ++ l').

End Registered.

(* ===================================================================== *)
(** * What a plugin function is said to do                                *)
(* ===================================================================== *)

Module Contracts.

Import Plugins.

(** A reducer decorator that sets key [k] to [v]: whatever state and action
    it is given, it returns an object whose property [k] is [v]. *)
Definition sets_key (decorator : tagged reducer_fn) (k : string) (v : value) : Prop :=
  forall state action c,
    exists props c',
      fn decorator state action c = (Return (VObject props), c')
      /\ assoc k props = Some v.

(** A constants transform that appends [entry] to the listeners: given a
    namespace whose [listeners] is an array, it returns a namespace whose
    [listeners] is that array followed by [entry]. *)
Definition appends_listener (transform : tagged transform_fn) (entry : value) : Prop :=
  forall props ls c,
    assoc "listeners" props = Some (VArray ls) ->
    exists props' c',
      fn transform (VObject props) c = (Return (VObject props'), c')
      /\ assoc "listeners" props' = Some (VArray (ls ++ [entry])).

(** No configured plugin declares route props for [name]. *)
Definition undeclared_route (require : string -> option Plugin.t)
    (names : list string) (name : string) : Prop :=
  forall pluginName p routes f,
    In pluginName names ->
    require pluginName = Some p ->
    Plugin.getRouteProps p = Some routes ->
    In (name, f) routes ->
    is_internal name = true.

End Contracts.

(* ===================================================================== *)
(** * Sample plugins and inputs                                           *)
(* ===================================================================== *)

Import Plugins Registered Contracts.

Module Samples.

(** [(state, acc) => { throw e; }] *)
Definition throwing (e : value) : mapper_fn := fun _ _ => throw e.

(** [(state, acc) => v] *)
Definition returning (v : value) : mapper_fn := fun _ _ => ret v.

(** [(state, acc) => Object.assign({}, acc, { [k]: v })] *)
Definition adding (k : string) (v : value) : mapper_fn :=
  fun _ acc =>
    match object_assign_fresh acc with
    | VObject props => ret (VObject (assoc_set k v props))
    | other => ret other
    end.

Definition boom : value :=
  VObject [("name", VString "Error"); ("message", VString "boom");
           ("stack", VString "Error: boom at mapAppState")].

(** [store => next => action => { console.error(label); return next(action); }] *)
Definition announcing (label : string) : middleware_fn :=
  fun _ next action => do_ console_error [VString label] ;; next action.

(** [sockets => Object.assign({}, sockets,
       { listeners: sockets.listeners.concat([entry]) })] *)
Definition appending (entry : value) : transform_fn :=
  fun sockets =>
    match sockets with
    | VObject props =>
        match assoc "listeners" props with
        | Some (VArray ls) =>
            ret (VObject (assoc_set "listeners" (VArray (ls ++ [entry])) props))
        | _ => throw (TypeError "sockets.listeners.concat is not a function")
        end
    | _ => throw (TypeError "Cannot read properties of undefined (reading 'listeners')")
    end.

(** [(state, action) => Object.assign({}, state, { [k]: v })] *)
Definition setting (k : string) (v : value) : reducer_fn :=
  fun state _ =>
    match object_assign_fresh state with
    | VObject props => ret (VObject (assoc_set k v props))
    | other => ret other
    end.

(** [(parentProps, acc) => Object.assign({}, acc, { [k]: v })] *)
Definition supplying (k : string) (v : value) : props_decorator_fn :=
  fun _ acc _ =>
    match object_assign_fresh acc with
    | VObject props => ret (VObject (assoc_set k v props))
    | other => ret other
    end.

Definition meta (n : string) : Plugin.metadata_t :=
  {| Plugin.name := Some n; Plugin.pluginVersion := Some "1.0.0" |}.

(** A plugin that exports its metadata and a middleware. *)
Definition parent : Plugin.t :=
  {| Plugin.metadata := Some (meta "parent");
     Plugin.middleware := Some (announcing "parent");
     Plugin.mapPanelState := None;
     Plugin.mapAppState := None;
     Plugin.mapPanelDispatch := None;
     Plugin.mapAppDispatch := None;
     Plugin.getRouteProps := None;
     Plugin.getPanelProps := None;
     Plugin.reduceChain := None;
     Plugin.reduceNode := None;
     Plugin.addSocketsConstants := None;
     Plugin.decoratePlugin := None;
     Plugin.others := [] |}.

(** A plugin with every export, decorating the plugin [target]. *)
Definition decorating (n target : string) : Plugin.t :=
  {| Plugin.metadata := Some (meta n);
     Plugin.middleware := Some (announcing n);
     Plugin.mapPanelState := Some (adding "panel" (VString n));
     Plugin.mapAppState := Some (adding "app" (VString n));
     Plugin.mapPanelDispatch := Some (adding "panelAction" (VFunction n));
     Plugin.mapAppDispatch := Some (adding "appAction" (VFunction n));
     Plugin.getRouteProps := Some [("home", supplying "home" (VString n))];
     Plugin.getPanelProps := Some (supplying "panel" (VString n));
     Plugin.reduceChain := Some (setting "height" (VString n));
     Plugin.reduceNode := Some (setting "node" (VString n));
     Plugin.addSocketsConstants :=
       Some (appending (Sockets.listener "x" "Y"));
     Plugin.decoratePlugin := Some [(target, VFunction ("decorate:" +:+ n))];
     Plugin.others := [] |}.

(** The modules under [../localPlugins/]: [child] decorates [parent],
    [orphan] decorates a plugin that is nowhere. *)
Definition require (pluginName : string) : option Plugin.t :=
  if String.eqb pluginName "parent" then Some parent
  else if String.eqb pluginName "child" then Some (decorating "child" "parent")
  else if String.eqb pluginName "orphan" then Some (decorating "orphan" "absent")
  else None.

(** The sample modules and [heir], a plugin that decorates the plugin
    [target]. *)
Definition heir_require (target : string) (pluginName : string) : option Plugin.t :=
  if String.eqb pluginName "heir" then Some (decorating "heir" target)
  else require pluginName.

(** A plugin that exports its metadata, a middleware and a string, as in
    [export const version = '1.0']. *)
Definition versioned : Plugin.t :=
  {| Plugin.metadata := Some (meta "versioned");
     Plugin.middleware := Some (announcing "versioned");
     Plugin.mapPanelState := None;
     Plugin.mapAppState := None;
     Plugin.mapPanelDispatch := None;
     Plugin.mapAppDispatch := None;
     Plugin.getRouteProps := None;
     Plugin.getPanelProps := None;
     Plugin.reduceChain := None;
     Plugin.reduceNode := None;
     Plugin.addSocketsConstants := None;
     Plugin.decoratePlugin := None;
     Plugin.others := [("version", VString "1.0")] |}.

(** The sample modules and [versioned]. *)
Definition versioned_require (pluginName : string) : option Plugin.t :=
  if String.eqb pluginName "versioned" then Some versioned
  else require pluginName.

(** A store whose state is empty and whose [dispatch] hands the action
    back. *)
Definition store : Store.t :=
  {| Store.getState := ret (VObject []); Store.dispatch := fun action => ret action |}.

(** The namespaces defined outside this slice, left empty. *)
Definition imports : Constants.imports :=
  {| Constants.SET_CHAIN_TIP := "SET_CHAIN_TIP";
     Constants.chain := VObject [];
     Constants.node := VObject [];
     Constants.plugins := VObject [];
     Constants.theme := VObject [] |}.

(** The page right after the module was evaluated. *)
Definition fresh : world := {| rt := initial; out := [] |}.

(** A runtime whose only registered function is one [App] state mapper. *)
Definition with_App_state (ms : list (tagged mapper_fn)) : world :=
  {| rt := set_connectors
             (Some {| App := {| Connector.state := ms; Connector.dispatch := [] |};
                      Panel := Connector.empty |})
             (reset initial);
     out := [] |}.

End Samples.

(* ===================================================================== *)
(** * Further notions used by the properties                              *)
(* ===================================================================== *)

Module Further.

Import Plugins Registered.


(** A mapper that behaves on the argument [arg]: whatever the accumulator,
    it returns, and what it returns is an object. *)
Definition returns_object (arg : value) (mapper : tagged mapper_fn) : Prop :=
  forall acc c,
    exists v c',
      fn mapper arg acc c = (Return v, c') /\ invalid_return v = false.

(** A middleware that does [effect] on the action and then hands the
    action to its continuation. *)
Definition runs_then_next (store : Store.t) (m : tagged middleware_fn)
    (effect : value -> eff unit) : Prop :=
  forall next action c,
    fn m store next action c = (do_ effect action ;; next action) c.

(** [md'] has an entry wherever [md] has one. *)
Definition covers (md md' : gmap string Plugin.metadata_t) : Prop :=
  forall k, is_Some (md !! k) -> is_Some (md' !! k).

(** A plugin module without metadata: a middleware and an [App] state
    mapper, nothing else. *)
Definition anonymous : Plugin.t :=
  {| Plugin.metadata := None;
     Plugin.middleware := Some (Samples.announcing "anonymous");
     Plugin.mapPanelState := None;
     Plugin.mapAppState := Some (Samples.adding "anonymous" (VBool true));
     Plugin.mapPanelDispatch := None;
     Plugin.mapAppDispatch := None;
     Plugin.getRouteProps := None;
     Plugin.getPanelProps := None;
     Plugin.reduceChain := None;
     Plugin.reduceNode := None;
     Plugin.addSocketsConstants := None;
     Plugin.decoratePlugin := None;
     Plugin.others := [] |}.

(** The sample modules, and [anonymous] beside them. *)
Definition require (pluginName : string) : option Plugin.t :=
  if String.eqb pluginName "anonymous" then Some anonymous
  else Samples.require pluginName.

(** A decimal digit, and a string of decimal digits. *)
Definition is_digit (c : ascii) : bool :=
  (48 <=? nat_of_ascii c)%nat && (nat_of_ascii c <=? 57)%nat.

Fixpoint all_digits (s : string) : bool :=
  match s with
  | EmptyString => true
  | String c rest => is_digit c && all_digits rest
  end.

(** The percentage is a finite number below [10^21] in magnitude. *)
Definition displayable (x : float) : Prop :=
  match Prim2SF x with
  | S754_zero _ => True
  | S754_finite _ m e => Footer.at_least_1e21 m e = false
  | _ => False
  end.

(** A runtime whose only registered functions are the middlewares [ms]. *)
Definition with_middlewares (ms : list (tagged middleware_fn)) : world :=
  {| rt := set_middlewares (Some ms) (reset initial); out := [] |}.

(** A runtime whose only registered functions are the sockets transforms
    [ts]. *)
Definition with_sockets (ts : list (tagged transform_fn)) : world :=
  {| rt := set_extendConstants {[ "sockets" := ts ]} (reset initial); out := [] |}.

(** A runtime whose only registered functions are the reducer decorators
    [ds], under [name]. *)
Definition with_reducers (name : string) (ds : list (tagged reducer_fn)) : world :=
  {| rt := set_reducersDecorators {[ name := ds ]} (reset initial); out := [] |}.

End Further.

(* ===================================================================== *)
(** * Decorated components                                                *)
(* ===================================================================== *)

Module Decoration.

Import Plugins Registered.

(** What a property that is about to be called holds: a function, or some
    other value that passed a truthiness test. *)
Inductive property (F : Type) : Type :=
| Callable (f : F)
| NotCallable (v : value).
Arguments Callable {F} f.
Arguments NotCallable {F} v.

(** A function of a component, or of a child decorator, and of
    [{ React, PropTypes }]. *)
Abbreviation decorator_fn := (value -> value -> eff value) (only parsing).

(** [decorator(a, b)] *)
Definition call (decorator : property decorator_fn) (a b : value) : eff value :=
  match decorator with
  | Callable f => f a b
  | NotCallable _ => throw (TypeError "decorator is not a function")
  end.

(** The message of the string thrown for a parent without [decorator]; the
    literal continues over a line break, whose indentation it keeps. *)
Definition parent_message : string :=
  "Parent plugin can't be decorated "
  +:+ "                    because it doesn't have decorator".

Section Decorate.

(** The exports of a plugin module that the loader registers nowhere:
    [decorator], and the export named [methodName] for a method name
    [decorate<Name>] other than [decoratePlugin] and [decorator]. *)
Variable decorator_export : Plugin.t -> option decorator_fn.
Variable decorate_export : Plugin.t -> string -> option decorator_fn.

(** [{ React, PropTypes }] and [PropTypes.func]. *)
Variable helpers : value.
Variable PropTypes_func : value.

(** The class that [exposeDecorated] defines around [Component_]. *)
Variable DecoratedComponent : value -> value.

(** ** exposeDecorated *)

(** [onRef(decorated_)], for the [onDecorated] prop of the instance. *)
Definition onRef (onDecorated : option (property (value -> eff value)))
    (decorated_ : value) : eff unit :=
  match onDecorated with
  | None => ret tt
  | Some callback =>
      try_catch
        (match callback with
         | Callable f => do_ f decorated_ ;; ret tt
         | NotCallable _ => throw (TypeError "this.props.onDecorated is not a function")
         end)
        (fun e => console_error [VString "Plugin error:"; e])
  end.

(** The [ref] callback of the rendered element, [() => this.onRef()];
    [instance] is what React calls it with. *)
Definition ref_callback (onDecorated : option (property (value -> eff value)))
    (instance : value) : eff unit :=
  onRef onDecorated VUndefined.

Definition exposeDecorated (Component_ : value) : outcome value :=
  set_property (DecoratedComponent Component_) "propTypes"
    (VObject [("onDecorated", PropTypes_func)]).

(** ** getDecorated *)

(** [plugin[methodName]] for a method name that starts with [decorate]. *)
Definition plugin_get (plugin : Plugin.t) (methodName : string)
  : option (property decorator_fn) :=
  if String.eqb methodName "decoratePlugin" then
    (fun entries => NotCallable (VObject entries)) <$> Plugin.decoratePlugin plugin
  else if String.eqb methodName "decorator" then
    Callable <$> decorator_export plugin
  else Callable <$> decorate_export plugin methodName.

(** [typeof err === 'string' ? err : err.stack] *)
Definition shown (err : value) : outcome value :=
  match err with
  | VString _ => Return err
  | _ => member_stack err
  end.

(** The first argument of the [console.error] in the [catch] block. *)
Definition decorating_message (pluginName : option string) : string :=
  "Plugin error when decorating component with " +:+ template pluginName +:+ ":".

(** The callback of [plugins.forEach]: [component_] before the call, and
    the [component_] it leaves. *)
Definition decorate_with (name : string) (component_ : value)
    (plugin : tagged Plugin.t) : M world value :=
  let methodName := "decorate" +:+ name in
  match plugin_get (fn plugin) methodName with
  | None => ret component_
  | Some decorator =>
      let pluginName := _pluginName plugin in
      try_catch
        (do r <- read ;;
         do_ match lookup_key (pluginDecorators r) (template pluginName) with
             | Missing => ret tt
             | Own childDecorators =>
                 match decorator_export (fn plugin) with
                 | None => throw (VString parent_message)
                 | Some parent =>
                     do_ liftc (mapM (fun childDecorator => parent childDecorator helpers)
                                  childDecorators) ;;
                     ret tt
                 end
             | Inherited =>
                 match decorator_export (fn plugin) with
                 | None => throw (VString parent_message)
                 | Some _ =>
                     (* the inherited member has no [forEach] *)
                     throw (TypeError
                              "pluginDecorators[pluginName].forEach is not a function")
                 end
             end ;;
         do component__ <- liftc (call decorator component_ helpers) ;;
         of_outcome
           (set_property component__ "displayName"
              (VString (template pluginName +:+ "(" +:+ name +:+ ")"))))
        (fun err =>
           do stack <- of_outcome (shown err) ;;
           do_ liftc (console_error [VString (decorating_message pluginName); stack]) ;;
           ret component_)
  end.

(** [decorated[name]] *)
Definition cached (r : runtime) (name : string) : value :=
  match lookup_key (decorated r) name with
  | Own v => v
  | Inherited => prototype_member name
  | Missing => VUndefined
  end.

(** [!decorated[name]] *)
Definition not_cached (r : runtime) (name : string) : bool :=
  negb (truthy (cached r name)).

Definition getDecorated (Component : value) (name : string) : M world value :=
  do r <- read ;;
  do_ (if not_cached r name then
         do exposed <- of_outcome (exposeDecorated Component) ;;
         do component_ <- of_outcome
                            (set_property exposed "displayName"
                               (VString ("exposeDecorated(" +:+ name +:+ ")"))) ;;
         match plugins r with
         | None => undefined_access "forEach"
         | Some loaded_plugins =>
             do component_' <- reduce (decorate_with name) loaded_plugins component_ ;;
             assign (fun r' => set_decorated (<[ name := component_' ]> (decorated r')) r')
         end
       else ret tt) ;;
  do r' <- read ;;
  ret (cached r' name).

(** ** decorate *)

(** The state of an instance of the class that [decorate] returns. *)
Record boundary : Type := { hasError : bool }.

(** The constructor. *)
Definition mounted : boundary := {| hasError := false |}.

Definition crash_message (name : string) : string :=
  "Plugins decorating " +:+ name +:+ " has been disabled because of a plugin crash.".

Definition componentDidCatch (name : string) (error errorInfo : value)
    (this : boundary) : M world boundary :=
  do_ liftc (console_error [VString (crash_message name); error; errorInfo]) ;;
  ret {| hasError := true |}.

(** The component [Sub] that [render] creates an element of. *)
Definition render_Sub (Component_ : value) (name : string) (this : boundary)
  : M world value :=
  if hasError this then ret Component_ else getDecorated Component_ name.

End Decorate.

(** ** Sample decorators *)

(** [(Component, helpers) => ({ wraps: Component, by: label })] *)
Definition wrapping (label : string) : decorator_fn :=
  fun component _ => ret (VObject [("wraps", component); ("by", VString label)]).

(** [(Component, helpers) => { throw e; }] *)
Definition failing (e : value) : decorator_fn := fun _ _ => throw e.

(** The sample plugins named [child] export a [decorateFooter] that wraps
    the component; those named [orphan] export one that throws. *)
Definition sample_decorate (plugin : Plugin.t) (methodName : string)
  : option decorator_fn :=
  if String.eqb methodName "decorateFooter" then
    match Plugin.metadata plugin with
    | Some md =>
        if bool_decide (Plugin.name md = Some "child") then Some (wrapping "child")
        else if bool_decide (Plugin.name md = Some "orphan") then Some (failing Samples.boom)
        else None
    | None => None
    end
  else None.

(** No sample plugin exports [decorator]. *)
Definition sample_decorator (plugin : Plugin.t) : option decorator_fn := None.

Definition sample_class (Component_ : value) : value :=
  VObject [("wraps", Component_)].

(** The sample plugin that decorates [target], as the loader leaves it. *)
Definition loaded_sample (n target : string) : tagged Plugin.t :=
  tag_of (Samples.decorating n target) (Samples.decorating n target).


(** A page whose loaded plugins are [ps]. *)
Definition with_plugins (ps : list (tagged Plugin.t)) : world :=
  {| rt := set_plugins (Some ps) (reset initial); out := [] |}.

(** The same page once a plugin has declared a decorator for the plugin
    [target]. *)
Definition with_child_of (target : string) (ps : list (tagged Plugin.t)) : world :=
  {| rt := set_pluginDecorators {[ target := [VFunction "child decorator"] ]}
             (rt (with_plugins ps));
     out := [] |}.

End Decoration.

(* ===================================================================== *)
(** * Properties                                                          *)
(* ===================================================================== *)

(** ** Running computations *)

Lemma bind_Return {S A B} (c : M S A) (k : A -> M S B) s a s' :
  c s = (Return a, s') -> bind c k s = k a s'.
Proof. intros H. unfold bind. now rewrite H. Qed.


Lemma liftc_run {A} (c : eff A) w o c' :
  c (out w) = (o, c') -> liftc c w = (o, {| rt := rt w; out := c' |}).
Proof. intros H. unfold liftc. now rewrite H. Qed.

Lemma world_eta w : {| rt := rt w; out := out w |} = w.
Proof. now destruct w. Qed.

Lemma reduce_app {S A B} (step : A -> B -> M S A) l1 l2 init s :
  reduce step (l1 ++ l2) init s
  = bind (reduce step l1 init) (fun acc => reduce step l2 acc) s.
Proof.
  revert init s. induction l1 as [|x l1 IH]; intros init s; simpl.
  - reflexivity.
  - unfold bind in *.
    destruct (step init x s) as [[a|e] s']; [apply IH | reflexivity].
Qed.

(** ** connect: one step of the state and dispatch folds *)

Section ConnectStep.

Variables (name : string) (arg acc : value) (mapper : tagged mapper_fn).
Variable c : console.

Lemma state_step_returned v c' :
  fn mapper arg acc c = (Return v, c') ->
  connect_state_step name arg acc mapper c
  = if invalid_return v
    then (Return VUndefined, c' ++ [invalid_message name (_pluginName mapper)])
    else (Return v, c').
Proof.
  intros H. unfold connect_state_step, bind, try_catch. rewrite H.
  destruct (invalid_return v); reflexivity.
Qed.

Lemma state_step_thrown e c' stack :
  fn mapper arg acc c = (Throw e, c') ->
  member_stack e = Return stack ->
  connect_state_step name arg acc mapper c
  = if invalid_return acc
    then (Return VUndefined,
          (c' ++ [problem_message name (_pluginName mapper) stack])
            ++ [invalid_message name (_pluginName mapper)])
    else (Return acc, c' ++ [problem_message name (_pluginName mapper) stack]).
Proof.
  intros H Hs. unfold connect_state_step, bind, try_catch, of_outcome.
  rewrite H, Hs. simpl. destruct (invalid_return acc); reflexivity.
Qed.

Lemma state_step_thrown_unreadable e c' te :
  fn mapper arg acc c = (Throw e, c') ->
  member_stack e = Throw te ->
  connect_state_step name arg acc mapper c = (Throw te, c').
Proof.
  intros H Hs. unfold connect_state_step, bind, try_catch, of_outcome.
  rewrite H, Hs. reflexivity.
Qed.

(** The two callbacks are the same function. *)
Lemma dispatch_step_eq :
  connect_dispatch_step name arg acc mapper = connect_state_step name arg acc mapper.
Proof. reflexivity. Qed.

End ConnectStep.

Lemma member_stack_readable e :
  e <> VUndefined -> e <> VNull -> exists stack, member_stack e = Return stack.
Proof. destruct e; simpl; intros; try congruence; eauto. Qed.

(** A mapper that throws a value whose [stack] can be read, on an object
    accumulator: the fold goes on from that accumulator as if the mapper
    were not registered, with one more line on the console. *)
Lemma state_fold_skips_thrower name st pre mapper post init c acc c1 e c2 stack :
  reduce (connect_state_step name st) pre init c = (Return acc, c1) ->
  fn mapper st acc c1 = (Throw e, c2) ->
  member_stack e = Return stack ->
  invalid_return acc = false ->
  reduce (connect_state_step name st) (pre ++ mapper :: post) init c
  = reduce (connect_state_step name st) post acc
      (c2 ++ [problem_message name (_pluginName mapper) stack]).
Proof.
  intros Hpre Hm Hs Hacc. rewrite reduce_app.
  rewrite (bind_Return _ _ _ _ _ Hpre). simpl.
  apply bind_Return.
  rewrite (state_step_thrown _ _ _ _ _ _ _ _ Hm Hs), Hacc. reflexivity.
Qed.

(** C1, on the inputs where the code departs from it: a state mapper
    registered for [App] that throws [undefined] or [null], the accumulator
    being the object [{}].  The [catch] block reads [err.stack], which is
    itself a [TypeError] on [undefined] and on [null], so the derived state
    function throws to its caller instead of returning the accumulator;
    nothing is written to the console.  For every other thrown value the
    step yields the accumulator (lemma [state_fold_skips_thrower]). *)
Theorem connect_state_thrown_undefined_escapes :
  let unreadable :=
    TypeError "Cannot read properties of undefined or null (reading 'stack')" in
  let thrower e := Tagged (Samples.throwing e) (Some "p") (Some "1.0.0") in
  connect_state None "App" (VObject []) (Samples.with_App_state [thrower VUndefined])
  = (Throw unreadable, Samples.with_App_state [thrower VUndefined])
  /\ connect_state None "App" (VObject []) (Samples.with_App_state [thrower VNull])
     = (Throw unreadable, Samples.with_App_state [thrower VNull]).
Proof. split; reflexivity. Qed.

(** C2 as stated fails: a mapper that throws an [Error] while the
    accumulator is the object [{}] makes the step yield that accumulator,
    not [undefined]. *)
Lemma connect_step_thrower_keeps_object_accumulator :
  let mapper := Tagged (Samples.throwing Samples.boom) (Some "p") (Some "1.0.0") in
  fn mapper VNull (VObject []) [] = (Throw Samples.boom, [])
  /\ connect_state_step "App" VNull (VObject []) mapper []
     = (Return (VObject []),
        [problem_message "App" (Some "p") (VString "Error: boom at mapAppState")])
  /\ VObject [] <> VUndefined.
Proof. repeat split. discriminate. Qed.

(** C2, amended: for every state or dispatch mapper called by the folds of
    [connect], a mapper that returns a value that is not an object logs an
    error that names its plugin and makes the step yield [undefined]; a
    mapper that throws a value whose [stack] can be read logs an error
    that names its plugin and leaves the step with the accumulator it was
    given, which is yielded when it is an object and otherwise reported
    and replaced by [undefined].  In each case the next mapper of the same
    fold receives what the step yielded. *)
Theorem connect_step_failure name arg acc (mapper : tagged mapper_fn) c o c' stack :
  fn mapper arg acc c = (o, c') ->
  match o with
  | Return v => invalid_return v = true
  | Throw e => member_stack e = Return stack
  end ->
  let next :=
    match o with
    | Return _ => VUndefined
    | Throw _ => if invalid_return acc then VUndefined else acc
    end in
  let log :=
    c' ++ match o with
          | Return _ => [invalid_message name (_pluginName mapper)]
          | Throw _ =>
              problem_message name (_pluginName mapper) stack
              :: (if invalid_return acc
                  then [invalid_message name (_pluginName mapper)] else [])
          end in
  connect_state_step name arg acc mapper c = (Return next, log)
  /\ connect_dispatch_step name arg acc mapper c = (Return next, log)
  /\ (forall rest,
        reduce (connect_state_step name arg) (mapper :: rest) acc c
        = reduce (connect_state_step name arg) rest next log)
  /\ (forall rest,
        reduce (connect_dispatch_step name arg) (mapper :: rest) acc c
        = reduce (connect_dispatch_step name arg) rest next log).
Proof.
  intros Hm Hfail next log.
  assert (Hstep : connect_state_step name arg acc mapper c = (Return next, log)).
  { subst next log. destruct o as [v|e].
    - rewrite (state_step_returned _ _ _ _ _ _ _ Hm), Hfail. reflexivity.
    - rewrite (state_step_thrown _ _ _ _ _ _ _ _ Hm Hfail).
      destruct (invalid_return acc); [|reflexivity].
      now rewrite <- app_assoc. }
  repeat split; try exact Hstep; intros rest; simpl; now apply bind_Return.
Qed.

Lemma connect_step_failure_witness :
  connect_state_step "Panel" VNull (VObject [])
    (Tagged (Samples.returning (VString "oops")) None None) []
  = (Return VUndefined, [invalid_message "Panel" None]).
Proof.
  apply (connect_step_failure "Panel" VNull (VObject [])
           (Tagged (Samples.returning (VString "oops")) None None)
           [] (Return (VString "oops")) [] VUndefined); reflexivity.
Defined.

(** ** loadPlugins: the steps of the callback *)

Ltac fields :=
  cbn [rt out plugins connectors metadata middlewares decorated pluginDecorators
       routePropsDecorators propsDecorators reducersDecorators extendConstants
       set_plugins set_connectors set_metadata set_middlewares set_decorated
       set_pluginDecorators set_routePropsDecorators set_propsDecorators
       set_reducersDecorators set_extendConstants] in *.

Lemma when_middleware_run (x : option middleware_fn) tag r o ms :
  middlewares r = Some ms ->
  when_present x (fun m => push_middleware (tag m)) {| rt := r; out := o |}
  = (Return tt,
     {| rt := set_middlewares (Some (ms ++ option_list (tag <$> x))) r; out := o |}).
Proof.
  intros H. destruct x as [m|]; simpl.
  - unfold push_middleware, bind, read. simpl. rewrite H. reflexivity.
  - unfold ret. rewrite app_nil_r, <- H. destruct r; reflexivity.
Qed.

Lemma when_connector_run (x : option mapper_fn) tag upd r o c :
  connectors r = Some c ->
  when_present x (fun m => push_connector upd (tag m)) {| rt := r; out := o |}
  = (Return tt,
     {| rt := set_connectors
                (Some (match x with Some m => upd (tag m) c | None => c end)) r;
        out := o |}).
Proof.
  intros H. destruct x as [m|]; simpl.
  - unfold push_connector, bind, read. simpl. rewrite H. reflexivity.
  - unfold ret. rewrite <- H. destruct r; reflexivity.
Qed.

Lemma when_push_in_run {A B} (x : option B) (tag : B -> A) what
    (proj : runtime -> gmap string (list A)) upd key r o l :
  upd (proj r) r = r ->
  proj r !! key = Some l ->
  when_present x (fun f => push_in what proj upd key (tag f)) {| rt := r; out := o |}
  = (Return tt,
     {| rt := upd (<[ key := l ++ option_list (tag <$> x) ]> (proj r)) r; out := o |}).
Proof.
  intros Hlens H. destruct x as [f|]; simpl.
  - unfold push_in, push_existing, bind, read. simpl. rewrite H. reflexivity.
  - unfold ret. rewrite app_nil_r, (insert_id _ _ _ H), Hlens. reflexivity.
Qed.

(** ** Keys that are no members of Object.prototype *)

Lemma lookup_key_plain {A} (m : gmap string A) key :
  inherited key = false ->
  lookup_key m key = match m !! key with Some a => Own a | None => Missing end.
Proof. intros H. unfold lookup_key. now rewrite H. Qed.

Lemma lookup_key_Own {A} (m : gmap string A) key a :
  m !! key = Some a -> lookup_key m key = Own a.
Proof. intros H. unfold lookup_key. now rewrite H. Qed.

Lemma has_metadata_plain md key :
  md !! "__proto__" = None ->
  inherited key = false ->
  has_metadata md key = match md !! key with Some _ => true | None => false end.
Proof.
  intros Hproto Hkey. unfold has_metadata. rewrite Hproto, Hkey.
  destruct (md !! key); reflexivity.
Qed.

Lemma has_metadata_own md key : is_Some (md !! key) -> has_metadata md key = true.
Proof. intros [m H]. unfold has_metadata. now rewrite H. Qed.

Lemma plain_key_inv {A} (key : string) (x : A) :
  plain_key (key, x) = true -> is_internal key = false -> inherited key = false.
Proof.
  unfold plain_key. simpl. intros H Hint. rewrite Hint in H.
  now apply negb_true_iff in H.
Qed.

Lemma plain_key_In {A} (entries : list (string * A)) key x :
  forallb plain_key entries = true -> In (key, x) entries ->
  is_internal key = false -> inherited key = false.
Proof.
  intros Hall Hin. rewrite forallb_forall in Hall.
  apply plain_key_inv with (x := x). now apply Hall.
Qed.

Lemma register_route_props_run entries : forall r o rp,
  forallb plain_key entries = true ->
  routePropsDecorators r = Some rp ->
  register_route_props entries {| rt := r; out := o |}
  = (Return tt,
     {| rt := set_routePropsDecorators (Some (fold_left add_route entries rp)) r;
        out := o |}).
Proof.
  induction entries as [|[key f] entries IH]; intros r o rp Hplain H; simpl.
  - unfold ret. rewrite <- H. destruct r; reflexivity.
  - simpl in Hplain. apply andb_true_iff in Hplain as [Hkey Hplain].
    unfold add_route at 2. simpl. destruct (is_internal key) eqn:Hint.
    + now apply IH.
    + unfold bind at 1, read. simpl. rewrite H.
      rewrite lookup_key_plain by (eapply plain_key_inv; eassumption).
      destruct (rp !! key); unfold bind, assign, modify; simpl;
        erewrite IH by (try exact Hplain; reflexivity); reflexivity.
Qed.

Lemma extends_refl pd : extends pd pd.
Proof. intros k l H. exists []. now rewrite app_nil_r. Qed.

Lemma extends_trans pd1 pd2 pd3 : extends pd1 pd2 -> extends pd2 pd3 -> extends pd1 pd3.
Proof.
  intros H12 H23 k l H. destruct (H12 k l H) as [l1 H1].
  destruct (H23 k _ H1) as [l2 H2]. exists (l1 ++ l2). now rewrite app_assoc.
Qed.

Lemma extends_push_at key d pd : extends pd (push_at key d pd).
Proof.
  intros k l H. unfold push_at. destruct (decide (key = k)) as [->|Hne].
  - rewrite lookup_insert_eq, H. simpl. eauto.
  - rewrite lookup_insert_ne by assumption. exists []. now rewrite app_nil_r.
Qed.

(** The loop over [plugin.decoratePlugin] returns when no target is a
    member of [Object.prototype]. *)
Lemma register_plugin_decorators_run name entries : forall r o,
  forallb plain_key entries = true ->
  metadata r !! "__proto__" = None ->
  register_plugin_decorators name entries {| rt := r; out := o |}
  = (Return (bool_decide (first_missing (metadata r) entries = None)),
     {| rt := set_pluginDecorators
                (plugin_decorators_after (metadata r) entries (pluginDecorators r)) r;
        out := o ++ match first_missing (metadata r) entries with
                    | Some key => [dependency_message key name]
                    | None => []
                    end |}).
Proof.
  induction entries as [|[key d] entries IH]; intros r o Hplain Hproto; simpl.
  - rewrite app_nil_r. unfold ret. destruct r; reflexivity.
  - simpl in Hplain. apply andb_true_iff in Hplain as [Hkey Hplain].
    destruct (is_internal key) eqn:Hint; [now apply IH|].
    unfold bind at 1, read. simpl.
    rewrite has_metadata_plain by (try exact Hproto; eapply plain_key_inv; eassumption).
    rewrite lookup_key_plain by (eapply plain_key_inv; eassumption).
    destruct (metadata r !! key) as [md|] eqn:Hmd.
    + destruct (pluginDecorators r !! key); unfold bind, assign, modify; simpl;
        now apply IH.
    + unfold bind, liftc, console_error, ret. simpl. destruct r; reflexivity.
Qed.

Lemma decorate_step_run name (x : option (list (string * value))) r o :
  forallb plain_key (default [] x) = true ->
  metadata r !! "__proto__" = None ->
  match x with
  | Some entries => register_plugin_decorators name entries
  | None => ret true
  end {| rt := r; out := o |}
  = (Return (bool_decide (first_missing (metadata r) (default [] x) = None)),
     {| rt := set_pluginDecorators
                (plugin_decorators_after (metadata r) (default [] x) (pluginDecorators r)) r;
        out := o ++ match first_missing (metadata r) (default [] x) with
                    | Some key => [dependency_message key name]
                    | None => []
                    end |}).
Proof.
  intros Hplain Hproto. destruct x as [entries|]; simpl.
  - now apply register_plugin_decorators_run.
  - rewrite app_nil_r. unfold ret. destruct r; reflexivity.
Qed.

Lemma when_Panel_state_run (x : option mapper_fn) tag r o c :
  connectors r = Some c ->
  when_present x (fun m => push_connector to_Panel_state (tag m)) {| rt := r; out := o |}
  = (Return tt,
     {| rt := set_connectors
                (Some {| App := App c;
                         Panel := {| Connector.state :=
                                       Connector.state (Panel c) ++ option_list (tag <$> x);
                                     Connector.dispatch := Connector.dispatch (Panel c) |} |}) r;
        out := o |}).
Proof.
  intros H. rewrite (when_connector_run _ _ _ _ _ _ H).
  destruct x; simpl; [reflexivity|]. rewrite app_nil_r.
  destruct c as [a [ps pd]]. reflexivity.
Qed.

Lemma when_App_state_run (x : option mapper_fn) tag r o c :
  connectors r = Some c ->
  when_present x (fun m => push_connector to_App_state (tag m)) {| rt := r; out := o |}
  = (Return tt,
     {| rt := set_connectors
                (Some {| App := {| Connector.state :=
                                     Connector.state (App c) ++ option_list (tag <$> x);
                                   Connector.dispatch := Connector.dispatch (App c) |};
                         Panel := Panel c |}) r;
        out := o |}).
Proof.
  intros H. rewrite (when_connector_run _ _ _ _ _ _ H).
  destruct x; simpl; [reflexivity|]. rewrite app_nil_r.
  destruct c as [[ps pd] a]. reflexivity.
Qed.

Lemma when_Panel_dispatch_run (x : option mapper_fn) tag r o c :
  connectors r = Some c ->
  when_present x (fun m => push_connector to_Panel_dispatch (tag m)) {| rt := r; out := o |}
  = (Return tt,
     {| rt := set_connectors
                (Some {| App := App c;
                         Panel := {| Connector.state := Connector.state (Panel c);
                                     Connector.dispatch :=
                                       Connector.dispatch (Panel c) ++ option_list (tag <$> x) |} |}) r;
        out := o |}).
Proof.
  intros H. rewrite (when_connector_run _ _ _ _ _ _ H).
  destruct x; simpl; [reflexivity|]. rewrite app_nil_r.
  destruct c as [a [ps pd]]. reflexivity.
Qed.

Lemma when_App_dispatch_run (x : option mapper_fn) tag r o c :
  connectors r = Some c ->
  when_present x (fun m => push_connector to_App_dispatch (tag m)) {| rt := r; out := o |}
  = (Return tt,
     {| rt := set_connectors
                (Some {| App := {| Connector.state := Connector.state (App c);
                                   Connector.dispatch :=
                                     Connector.dispatch (App c) ++ option_list (tag <$> x) |};
                         Panel := Panel c |}) r;
        out := o |}).
Proof.
  intros H. rewrite (when_connector_run _ _ _ _ _ _ H).
  destruct x; simpl; [reflexivity|]. rewrite app_nil_r.
  destruct c as [[ps pd] a]. reflexivity.
Qed.

Lemma when_route_props_run (x : option (list (string * props_decorator_fn))) r o rp :
  forallb plain_key (default [] x) = true ->
  routePropsDecorators r = Some rp ->
  when_present x register_route_props {| rt := r; out := o |}
  = (Return tt,
     {| rt := set_routePropsDecorators (Some (fold_left add_route (default [] x) rp)) r;
        out := o |}).
Proof.
  intros Hplain H. destruct x as [entries|]; simpl.
  - now apply register_route_props_run.
  - unfold ret. rewrite <- H. destruct r; reflexivity.
Qed.

Ltac norm :=
  fields; cbn [App Panel Connector.state Connector.dispatch] in *.

(** The tagging loop returns, and leaves every module variable as it
    was, when each of the exports is a function or an object. *)
Lemma tag_others_run name pluginVersion exports w :
  forallb taggable exports = true ->
  tag_others name pluginVersion exports w = (Return tt, w).
Proof.
  induction exports as [|[method export] exports IH]; intros H; [reflexivity|].
  cbn [forallb] in H. apply andb_true_iff in H as [Hexport H].
  unfold taggable in Hexport. cbn [snd] in Hexport.
  cbn [tag_others].
  destruct export; try discriminate;
    (erewrite bind_Return by reflexivity;
     erewrite bind_Return by reflexivity;
     now apply IH).
Qed.

Ltac run_exports :=
  erewrite bind_Return by (eapply when_middleware_run; eassumption); norm;
  erewrite bind_Return by (eapply when_Panel_state_run; eassumption); norm;
  erewrite bind_Return by (eapply when_App_state_run; reflexivity); norm;
  erewrite bind_Return by (eapply when_Panel_dispatch_run; reflexivity); norm;
  erewrite bind_Return by (eapply when_App_dispatch_run; reflexivity); norm;
  erewrite bind_Return by (eapply when_route_props_run; eassumption); norm;
  erewrite bind_Return by (eapply when_push_in_run; [reflexivity | eassumption]); norm;
  erewrite bind_Return by (eapply when_push_in_run; [reflexivity | eassumption]); norm;
  erewrite bind_Return by
    (eapply when_push_in_run;
     [reflexivity | norm; rewrite lookup_insert_ne by discriminate; eassumption]);
  norm;
  erewrite bind_Return by (eapply when_push_in_run; [reflexivity | eassumption]); norm.

(** One run of the callback of [loadPlugins], in a state where the
    registries are initialised and for a module that resolves: it returns,
    and every module variable is given by the functions of [Registered]. *)
Lemma loadPlugin_run require pn p r o c ms rp pp cr nr sc :
  require pn = Some p ->
  plain_package require pn = true ->
  metadata r !! "__proto__" = None ->
  connectors r = Some c ->
  middlewares r = Some ms ->
  routePropsDecorators r = Some rp ->
  propsDecorators r !! "getPanelProps" = Some pp ->
  reducersDecorators r !! "chainReducer" = Some cr ->
  reducersDecorators r !! "nodeReducer" = Some nr ->
  extendConstants r !! "sockets" = Some sc ->
  loadPlugin require pn {| rt := r; out := o |}
  = (Return (load_result require (metadata r) pn),
     {| rt :=
          {| plugins := plugins r;
             connectors :=
               Some {| App := {| Connector.state :=
                                   Connector.state (App c)
                                   ++ exported require Plugin.mapAppState pn;
                                 Connector.dispatch :=
                                   Connector.dispatch (App c)
                                   ++ exported require Plugin.mapAppDispatch pn |};
                       Panel := {| Connector.state :=
                                     Connector.state (Panel c)
                                     ++ exported require Plugin.mapPanelState pn;
                                   Connector.dispatch :=
                                     Connector.dispatch (Panel c)
                                     ++ exported require Plugin.mapPanelDispatch pn |} |};
             metadata := metadata_after require (metadata r) pn;
             middlewares := Some (ms ++ exported require Plugin.middleware pn);
             decorated := decorated r;
             pluginDecorators :=
               plugin_decorators_after (metadata_after require (metadata r) pn)
                 (dependencies require pn) (pluginDecorators r);
             routePropsDecorators :=
               Some (fold_left add_route (route_entries require pn) rp);
             propsDecorators :=
               <[ "getPanelProps" := pp ++ exported require Plugin.getPanelProps pn ]>
                 (propsDecorators r);
             reducersDecorators :=
               <[ "nodeReducer" := nr ++ exported require Plugin.reduceNode pn ]>
                 (<[ "chainReducer" := cr ++ exported require Plugin.reduceChain pn ]>
                    (reducersDecorators r));
             extendConstants :=
               <[ "sockets" := sc ++ exported require Plugin.addSocketsConstants pn ]>
                 (extendConstants r) |};
        out := o ++ load_log require (metadata r) pn |}).
Proof.
  intros Hreq Hplain Hproto Hc Hms Hrp Hpp Hcr Hnr Hsc.
  unfold plain_package in Hplain. rewrite Hreq in Hplain.
  apply andb_true_iff in Hplain as [Hpn Hplain].
  apply negb_true_iff, String.eqb_neq in Hpn.
  apply andb_true_iff in Hplain as [Hplain Hothers].
  apply andb_true_iff in Hplain as [Hroutes Htargets].
  unfold loadPlugin, load_result, load_log, missing_dependency, dependencies,
    declared_name, exported, route_entries, metadata_after, tag_of.
  rewrite Hreq.
  erewrite bind_Return by reflexivity.
  destruct (Plugin.metadata p) as [m|] eqn:Hmd.
  - erewrite bind_Return by reflexivity. cbn [fst snd]. norm.
    erewrite bind_Return by (apply tag_others_run; exact Hothers). norm.
    run_exports.
    erewrite bind_Return by
      (apply decorate_step_run;
       [exact Htargets | norm; now rewrite lookup_insert_ne]).
    norm.
    destruct (first_missing _ _); reflexivity.
  - erewrite bind_Return by reflexivity. cbn [fst snd]. norm.
    erewrite bind_Return by (apply tag_others_run; exact Hothers). norm.
    run_exports.
    erewrite bind_Return by (apply decorate_step_run; [exact Htargets | exact Hproto]).
    norm.
    rewrite <- app_assoc.
    destruct (first_missing _ _); reflexivity.
Qed.

Lemma metadata_after_proto require md pn :
  pn <> "__proto__" -> md !! "__proto__" = None ->
  metadata_after require md pn !! "__proto__" = None.
Proof.
  intros Hpn H. unfold metadata_after. destruct (require pn) as [p|]; [|exact H].
  destruct (Plugin.metadata p); [|exact H]. now rewrite lookup_insert_ne.
Qed.

Lemma plain_package_name require pn :
  plain_package require pn = true -> pn <> "__proto__".
Proof.
  unfold plain_package. intros H. apply andb_true_iff in H as [H _].
  now apply negb_true_iff, String.eqb_neq in H.
Qed.

Lemma metadata_loaded_proto require names : forall md,
  forallb (plain_package require) names = true ->
  md !! "__proto__" = None ->
  fold_left (metadata_after require) names md !! "__proto__" = None.
Proof.
  induction names as [|pn names IH]; intros md Hplain H; simpl; [exact H|].
  simpl in Hplain. apply andb_true_iff in Hplain as [Hpn Hplain].
  apply IH; [exact Hplain|]. apply metadata_after_proto; [|exact H].
  eapply plain_package_name; exact Hpn.
Qed.

Lemma plain_app require l1 l2 md :
  plain require (l1 ++ l2) md
  <-> plain require l1 md
      /\ plain require l2 (fold_left (metadata_after require) l1 md).
Proof.
  unfold plain. rewrite forallb_app, andb_true_iff. split.
  - intros (Hmd & H1 & H2). repeat split; try assumption.
    now apply metadata_loaded_proto.
  - intros ((Hmd & H1) & (_ & H2)). repeat split; assumption.
Qed.

Lemma plain_cons require pn names md :
  plain require (pn :: names) md
  <-> md !! "__proto__" = None /\ plain_package require pn = true
      /\ plain require names (metadata_after require md pn).
Proof.
  unfold plain. simpl. rewrite andb_true_iff. split.
  - intros (Hmd & Hpn & Hnames). repeat split; try assumption.
    apply metadata_after_proto; [|exact Hmd]. eapply plain_package_name; exact Hpn.
  - intros (Hmd & Hpn & _ & Hnames). repeat split; assumption.
Qed.

Lemma flat_map_snoc {A B} (f : A -> list B) l x :
  flat_map f (l ++ [x]) = flat_map f l ++ f x.
Proof. rewrite flat_map_app. simpl. now rewrite app_nil_r. Qed.

Lemma reset_registered require r :
  reset r = registered require [] r (metadata r) (pluginDecorators r).
Proof. reflexivity. Qed.

Lemma loadPlugin_registered require names0 r0 md pd o pn :
  is_Some (require pn) ->
  plain_package require pn = true ->
  md !! "__proto__" = None ->
  loadPlugin require pn {| rt := registered require names0 r0 md pd; out := o |}
  = (Return (load_result require md pn),
     {| rt := registered require (names0 ++ [pn]) r0 (metadata_after require md pn)
                (plugin_decorators_after (metadata_after require md pn)
                   (dependencies require pn) pd);
        out := o ++ load_log require md pn |}).
Proof.
  intros [p Hreq] Hplain Hproto.
  erewrite loadPlugin_run;
    [ | exact Hreq | exact Hplain | exact Hproto | reflexivity | reflexivity | reflexivity
      | apply lookup_singleton_eq
      | apply lookup_insert_eq
      | cbn [registered reducersDecorators];
        rewrite lookup_insert_ne by discriminate; apply lookup_singleton_eq
      | apply lookup_singleton_eq ].
  unfold registered. norm. rewrite !flat_map_snoc, fold_left_app.
  rewrite !insert_singleton_eq.
  rewrite insert_insert_eq.
  rewrite (insert_insert_ne _ "nodeReducer" "chainReducer") by discriminate.
  rewrite insert_singleton_eq.
  reflexivity.
Qed.

Lemma mapM_loadPlugin_registered require names :
  resolvable require names ->
  forall names0 r0 md pd o,
    plain require names md ->
    mapM (loadPlugin require) names {| rt := registered require names0 r0 md pd; out := o |}
    = (Return (load_results require md names),
       {| rt := registered require (names0 ++ names) r0
                  (fold_left (metadata_after require) names md)
                  (plugin_decorators_loaded require md pd names);
          out := o ++ load_logs require md names |}).
Proof.
  induction 1 as [|pn names Hpn Hnames IH]; intros names0 r0 md pd o Hplain; simpl.
  - now rewrite !app_nil_r.
  - apply plain_cons in Hplain as (Hproto & Hplain_pn & Hplain).
    erewrite bind_Return by (apply loadPlugin_registered; assumption).
    erewrite bind_Return by (apply IH; exact Hplain).
    now rewrite <- !app_assoc.
Qed.

(** [loadPlugins] returns whenever every configured module resolves and
    the configuration is [plain], and leaves the
    module variables and the console as [Registered] says. *)
Lemma loadPlugins_run require names w :
  resolvable require names ->
  plain require names (metadata (rt w)) ->
  loadPlugins names require w
  = (Return tt,
     {| rt := loaded require names (rt w);
        out := out w ++ load_logs require (metadata (rt w)) names |}).
Proof.
  intros Hres Hplain. unfold loadPlugins.
  erewrite bind_Return by reflexivity. norm.
  rewrite (reset_registered require).
  erewrite bind_Return by (apply mapM_loadPlugin_registered; assumption).
  reflexivity.
Qed.

(** The page that a load leaves is one on which the next load is plain
    too. *)
Lemma loaded_proto require names r :
  plain require names (metadata r) ->
  metadata (loaded require names r) !! "__proto__" = None.
Proof.
  intros [Hmd Hplain]. unfold loaded. norm. cbn [registered metadata].
  now apply metadata_loaded_proto.
Qed.

(** ** The closed forms on a configuration split in two *)

Lemma load_results_app require md l1 l2 :
  load_results require md (l1 ++ l2)
  = load_results require md l1
    ++ load_results require (fold_left (metadata_after require) l1 md) l2.
Proof.
  revert md. induction l1 as [|pn l1 IH]; intros md; simpl; [reflexivity|].
  now rewrite IH.
Qed.

Lemma load_logs_app require md l1 l2 :
  load_logs require md (l1 ++ l2)
  = load_logs require md l1
    ++ load_logs require (fold_left (metadata_after require) l1 md) l2.
Proof.
  revert md. induction l1 as [|pn l1 IH]; intros md; simpl; [reflexivity|].
  now rewrite IH, app_assoc.
Qed.

Lemma plugin_decorators_loaded_app require md pd l1 l2 :
  plugin_decorators_loaded require md pd (l1 ++ l2)
  = plugin_decorators_loaded require (fold_left (metadata_after require) l1 md)
      (plugin_decorators_loaded require md pd l1) l2.
Proof.
  revert md pd. induction l1 as [|pn l1 IH]; intros md pd; simpl; [reflexivity|].
  now rewrite IH.
Qed.

Lemma filter_loaded_app l1 l2 :
  filter_loaded (l1 ++ l2) = filter_loaded l1 ++ filter_loaded l2.
Proof. unfold filter_loaded. apply omap_app. Qed.

Lemma resolvable_app require l1 l2 :
  resolvable require (l1 ++ l2) <-> resolvable require l1 /\ resolvable require l2.
Proof. unfold resolvable. apply Forall_app. Qed.

(** ** The dependency check *)

Lemma first_missing_Some md entries key :
  first_missing md entries = Some key ->
  (exists d, In (key, d) entries) /\ is_internal key = false /\ md !! key = None.
Proof.
  induction entries as [|[k d] entries IH]; simpl; [discriminate|].
  destruct (is_internal k) eqn:Hint.
  - intros H. destruct (IH H) as ([d' Hin] & ? & ?). eauto 6.
  - destruct (md !! k) eqn:Hk.
    + intros H. destruct (IH H) as ([d' Hin] & ? & ?). eauto 6.
    + intros [= <-]. eauto 6.
Qed.

Lemma first_missing_None md entries key d :
  first_missing md entries = None ->
  In (key, d) entries -> is_internal key = false -> is_Some (md !! key).
Proof.
  induction entries as [|[k v] entries IH]; simpl; [intros _ []|].
  destruct (is_internal k) eqn:Hint.
  - intros H [Heq|Hin] Hk; [congruence | eauto].
  - destruct (md !! k) eqn:Hmd; [|discriminate].
    intros H [Heq|Hin] Hk; [|eauto].
    inversion Heq; subst. rewrite Hmd. eauto.
Qed.

Lemma first_missing_found md entries key d :
  In (key, d) entries -> is_internal key = false -> md !! key = None ->
  exists missing, first_missing md entries = Some missing.
Proof.
  intros Hin Hint Hmd. destruct (first_missing md entries) as [k|] eqn:H; [eauto|].
  destruct (first_missing_None _ _ _ _ H Hin Hint) as [x Hx]. congruence.
Qed.

(** The dependency drop on a [plain] configuration (one that names no
    route and no plugin like a member of [Object.prototype] and whose
    plugins export functions and objects only): a plugin whose
    [decoratePlugin] export names a
    target (not an internal, underscore-prefixed key) that has no entry in
    [metadata] when the dependency check of that plugin runs, that is
    after the plugins configured before it and the plugin itself have
    stored their metadata.  The callback of [loadPlugins] returns nothing
    for it, [loadPlugins] itself returns without throwing, the
    loaded-plugin list is made of the plugins kept before it followed by
    those kept after it, and the console holds the dependency error for a
    target that is indeed missing. *)
Lemma missing_dependency_drops_plugin require pre pn post p entries key d w :
  resolvable require (pre ++ pn :: post) ->
  plain require (pre ++ pn :: post) (metadata (rt w)) ->
  require pn = Some p ->
  Plugin.decoratePlugin p = Some entries ->
  In (key, d) entries ->
  is_internal key = false ->
  fold_left (metadata_after require) (pre ++ [pn]) (metadata (rt w)) !! key = None ->
  exists before after w1 w2 w3 missing,
    mapM (loadPlugin require) pre {| rt := reset (rt w); out := out w |}
    = (Return before, w1)
    /\ loadPlugin require pn w1 = (Return None, w2)
    /\ mapM (loadPlugin require) post w2 = (Return after, w3)
    /\ loadPlugins (pre ++ pn :: post) require w
       = (Return tt,
          {| rt := set_plugins (Some (filter_loaded before ++ filter_loaded after)) (rt w3);
             out := out w3 |})
    /\ metadata (rt w2)
       = fold_left (metadata_after require) (pre ++ [pn]) (metadata (rt w))
    /\ (exists d', In (missing, d') entries)
    /\ is_internal missing = false
    /\ metadata (rt w2) !! missing = None
    /\ In (dependency_message missing (_pluginName (tag_of p p))) (out w3).
Proof.
  intros Hres Hplain Hreq Hdec Hin Hint Hkey.
  pose proof Hplain as Hplain_all.
  apply resolvable_app in Hres as [Hpre Hrest].
  apply Forall_cons in Hrest as [Hpn Hpost].
  apply plain_app in Hplain as [Hplain_pre Hplain_rest].
  apply plain_cons in Hplain_rest as (Hproto_pn & Hplain_pn & Hplain_post).
  set (md0 := metadata (rt w)) in *.
  set (md1 := fold_left (metadata_after require) pre md0).
  assert (Hmd : fold_left (metadata_after require) (pre ++ [pn]) md0
                = metadata_after require md1 pn) by now rewrite fold_left_app.
  rewrite Hmd in Hkey.
  assert (Hdeps : dependencies require pn = entries).
  { unfold dependencies. now rewrite Hreq, Hdec. }
  destruct (first_missing_found _ _ _ _ Hin Hint Hkey) as [missing Hmiss].
  destruct (first_missing_Some _ _ _ Hmiss) as (Hmin & Hmint & Hmnone).
  assert (Hresult : load_result require md1 pn = None).
  { unfold load_result, missing_dependency. now rewrite Hreq, Hdeps, Hmiss. }
  assert (Hlog : load_log require md1 pn
                 = match Plugin.metadata p with
                   | Some _ => []
                   | None => [metadata_message pn]
                   end ++ [dependency_message missing (_pluginName (tag_of p p))]).
  { unfold load_log, missing_dependency, declared_name. now rewrite Hreq, Hdeps, Hmiss. }
  pose proof (mapM_loadPlugin_registered require pre Hpre [] (rt w) md0
                (pluginDecorators (rt w)) (out w) Hplain_pre) as Hrun1.
  rewrite <- reset_registered in Hrun1.
  pose proof (fun r0 pd o =>
                loadPlugin_registered require ([] ++ pre) r0 md1 pd o pn Hpn
                  Hplain_pn Hproto_pn) as Hrun2.
  pose proof (fun names0 r0 pd o =>
                mapM_loadPlugin_registered require post Hpost names0 r0 _ pd o
                  Hplain_post) as Hrun3.
  unfold md1 in *. clear md1.
  eexists _, _, _, _, _, missing.
  split; [exact Hrun1|].
  split; [rewrite Hrun2, Hresult; reflexivity|].
  split; [apply Hrun3|].
  split; [|split; [norm; symmetry; exact Hmd
                  |split; [exact Hmin|split; [exact Hmint|split]]]].
  - rewrite (loadPlugins_run require _ w)
      by first [ exact Hplain_all
               | apply resolvable_app; split; [exact Hpre | constructor; assumption] ].
    unfold loaded. norm. fold md0.
    replace (pre ++ pn :: post) with ((pre ++ [pn]) ++ post)
      by (now rewrite <- app_assoc).
    rewrite !load_results_app, !load_logs_app, !plugin_decorators_loaded_app.
    rewrite !fold_left_app. simpl. rewrite Hresult.
    rewrite !filter_loaded_app. simpl.
    rewrite <- !app_assoc. simpl. reflexivity.
  - norm. exact Hmnone.
  - norm. rewrite Hlog. rewrite !in_app_iff. simpl. tauto.
Qed.

Lemma missing_dependency_drops_plugin_witness :
  exists w',
    loadPlugins ["parent"; "orphan"; "child"] Samples.require Samples.fresh = (Return tt, w').
Proof.
  destruct (missing_dependency_drops_plugin Samples.require ["parent"] "orphan" ["child"]
              (Samples.decorating "orphan" "absent")
              [("absent", VFunction "decorate:orphan")] "absent"
              (VFunction "decorate:orphan") Samples.fresh)
    as (before & after & w1 & w2 & w3 & missing & _ & _ & _ & Hload & _).
  - repeat constructor; eexists; reflexivity.
  - split; reflexivity.
  - reflexivity.
  - reflexivity.
  - left. reflexivity.
  - reflexivity.
  - vm_compute. reflexivity.
  - eexists. exact Hload.
Defined.

(** The same load, with what it leaves: [orphan], which decorates the
    plugin [absent] that is nowhere, is dropped, and the console holds the
    three arguments of the dependency error. *)
Example missing_dependency_logged :
  exists w',
    loadPlugins ["parent"; "orphan"; "child"] Samples.require Samples.fresh = (Return tt, w')
    /\ plugins (rt w')
       = Some [tag_of Samples.parent Samples.parent;
               tag_of (Samples.decorating "child" "parent")
                 (Samples.decorating "child" "parent")]
    /\ out w'
       = [[VString ("Plugin dependency " +:+ dquote +:+ "absent" +:+ dquote
                    +:+ " does not exist for orphan.");
           VString ("Please make sure plugin " +:+ dquote +:+ "absent" +:+ dquote
                    +:+ " has been added to configs");
           VString ("and is loaded before child plugin " +:+ dquote +:+ "orphan"
                    +:+ dquote)]]
    /\ dquote = String (ascii_of_nat 34) EmptyString.
Proof.
  eexists. split.
  - apply loadPlugins_run; [repeat constructor; eexists; reflexivity | split; reflexivity].
  - repeat match goal with |- _ /\ _ => split end; vm_compute; reflexivity.
Qed.

(** C3, on the targets where the code departs from it: a plugin whose
    [decoratePlugin] names a target that is never present in the
    configuration and that every object inherits from [Object.prototype],
    such as [constructor] or [toString].  The test [!metadata[key]] finds
    the inherited member, so the plugin is not dropped and no dependency
    error is logged; [!pluginDecorators[key]] finds it as well, so no
    array is created, and the [push] that follows is a call of something
    the member does not have: [loadPlugins] throws a [TypeError] and never
    assigns the loaded-plugin list.  For every other missing target the
    plugin is dropped as the claim says (lemma
    [missing_dependency_drops_plugin]). *)
Theorem inherited_target_breaks_load target :
  inherited target = true ->
  is_internal target = false ->
  exists w',
    loadPlugins ["heir"] (Samples.heir_require target) Samples.fresh
    = (Throw (TypeError "pluginDecorators[key].push is not a function"), w')
    /\ metadata (rt w') !! target = None
    /\ plugins (rt w') = None
    /\ out w' = [].
Proof.
  intros Hin Hint. unfold inherited, prototype_members in Hin. simpl in Hin.
  repeat (apply orb_prop in Hin as [Hin|Hin]);
    try discriminate;
    apply String.eqb_eq in Hin; subst target;
    try discriminate;
    (eexists; split;
     [ vm_compute; reflexivity
     | repeat match goal with |- _ /\ _ => split end; vm_compute; reflexivity ]).
Qed.

Lemma inherited_target_breaks_load_witness :
  exists w',
    loadPlugins ["heir"] (Samples.heir_require "constructor") Samples.fresh
    = (Throw (TypeError "pluginDecorators[key].push is not a function"), w')
    /\ metadata (rt w') !! "constructor" = None
    /\ plugins (rt w') = None
    /\ out w' = [].
Proof.
  apply (inherited_target_breaks_load "constructor"); reflexivity.
Defined.

(** A plugin module that also exports a string: the tagging loop assigns
    a property to the string, which the strict code of a module refuses.
    [loadPlugins] throws after the metadata of the plugin has been kept
    and before the plugin registers anything, and the loaded-plugin list is
    never assigned. *)
Example primitive_export_breaks_load :
  exists message w',
    loadPlugins ["versioned"] Samples.versioned_require Samples.fresh
    = (Throw (TypeError message), w')
    /\ metadata (rt w') !! "versioned" = Some (Samples.meta "versioned")
    /\ middlewares (rt w') = Some []
    /\ plugins (rt w') = None
    /\ out w' = [].
Proof.
  do 2 eexists. split; [vm_compute; reflexivity|].
  repeat match goal with |- _ /\ _ => split end; vm_compute; reflexivity.
Qed.

(** ** What a configured plugin leaves in the registries *)

Lemma exported_In require {F} (proj : Plugin.t -> option F) names pn p f :
  In pn names -> require pn = Some p -> proj p = Some f ->
  In (tag_of p f) (flat_map (exported require proj) names).
Proof.
  intros Hin Hreq Hf. apply in_flat_map. exists pn. split; [exact Hin|].
  unfold exported. rewrite Hreq, Hf. simpl. now left.
Qed.

Lemma add_route_keeps entries : forall m k l x,
  m !! k = Some l -> In x l ->
  exists l', fold_left add_route entries m !! k = Some l' /\ In x l'.
Proof.
  induction entries as [|[key f] entries IH]; intros m k l x Hk Hx; simpl; [eauto|].
  unfold add_route at 2. simpl. destruct (is_internal key); [eauto|].
  unfold push_at. destruct (decide (key = k)) as [->|Hne].
  - eapply IH; [apply lookup_insert_eq|]. rewrite Hk. simpl.
    apply in_app_iff. now left.
  - eapply IH; [|exact Hx]. now rewrite lookup_insert_ne.
Qed.

Lemma add_route_In entries : forall m k f,
  In (k, f) entries -> is_internal k = false ->
  exists l, fold_left add_route entries m !! k = Some l /\ In (untagged f) l.
Proof.
  induction entries as [|[key g] entries IH]; intros m k f Hin Hint; simpl; [destruct Hin|].
  destruct Hin as [Heq|Hin]; [|eauto].
  inversion Heq; subst. unfold add_route at 2. simpl. rewrite Hint.
  eapply add_route_keeps; [apply lookup_insert_eq|].
  apply in_app_iff. right. now left.
Qed.

Lemma add_route_None entries : forall m name,
  m !! name = None ->
  (forall k f, In (k, f) entries -> is_internal k = false -> k <> name) ->
  fold_left add_route entries m !! name = None.
Proof.
  induction entries as [|[key g] entries IH]; intros m name Hm Hall; simpl; [exact Hm|].
  apply IH; [|intros k f Hin; apply (Hall k f); now right].
  unfold add_route. simpl. destruct (is_internal key) eqn:Hint; [exact Hm|].
  unfold push_at. rewrite lookup_insert_ne; [exact Hm|].
  apply (Hall key g); [now left | exact Hint].
Qed.

Lemma extends_plugin_decorators_after md entries : forall pd,
  extends pd (plugin_decorators_after md entries pd).
Proof.
  induction entries as [|[key d] entries IH]; intros pd; simpl.
  - apply extends_refl.
  - destruct (is_internal key); [apply IH|].
    destruct (md !! key); [|apply extends_refl].
    eapply extends_trans; [apply extends_push_at | apply IH].
Qed.

Lemma extends_plugin_decorators_loaded require names : forall md pd,
  extends pd (plugin_decorators_loaded require md pd names).
Proof.
  induction names as [|pn names IH]; intros md pd; simpl.
  - apply extends_refl.
  - eapply extends_trans; [apply extends_plugin_decorators_after | apply IH].
Qed.

Lemma metadata_after_keeps require md pn k :
  is_Some (md !! k) -> is_Some (metadata_after require md pn !! k).
Proof.
  intros H. unfold metadata_after.
  destruct (require pn) as [p|]; [|exact H].
  destruct (Plugin.metadata p) as [m|]; [|exact H].
  destruct (decide (pn = k)) as [->|Hne].
  - rewrite lookup_insert_eq. eauto.
  - now rewrite lookup_insert_ne.
Qed.

Lemma metadata_loaded_keeps require names : forall md k,
  is_Some (md !! k) -> is_Some (fold_left (metadata_after require) names md !! k).
Proof.
  induction names as [|pn names IH]; intros md k H; simpl; [exact H|].
  apply IH. now apply metadata_after_keeps.
Qed.

(** The loaded-plugin list when the plugin [pn] of a configuration is
    dropped: what the plugins before it and after it leave. *)
Lemma load_results_dropped require md pre pn post :
  load_result require (fold_left (metadata_after require) pre md) pn = None ->
  filter_loaded (load_results require md (pre ++ pn :: post))
  = filter_loaded (load_results require md pre)
    ++ filter_loaded
         (load_results require (fold_left (metadata_after require) (pre ++ [pn]) md) post).
Proof.
  intros H. rewrite load_results_app. simpl. rewrite H, fold_left_app.
  rewrite filter_loaded_app. reflexivity.
Qed.

Lemma missing_dependency_result require md pn p entries key d :
  require pn = Some p ->
  Plugin.decoratePlugin p = Some entries ->
  In (key, d) entries ->
  is_internal key = false ->
  metadata_after require md pn !! key = None ->
  load_result require md pn = None.
Proof.
  intros Hreq Hdec Hin Hint Hkey. unfold load_result, missing_dependency, dependencies.
  rewrite Hreq, Hdec. simpl.
  destruct (first_missing_found _ _ _ _ Hin Hint Hkey) as [missing ->]. reflexivity.
Qed.

(** C4, where the code departs from it: on a [plain] configuration (one
    that names no route and no plugin like a member of [Object.prototype]
    and whose plugins export functions and objects only), a plugin
    dropped by [loadPlugins] for a
    missing dependency is left out of the loaded-plugin list, and that is
    all the drop undoes.  Its middleware, its four state and dispatch
    mappers, its route and panel prop decorators, its reducer decorators
    and its constants transform were pushed before the dependency check,
    and they are in the registries when [loadPlugins] returns: the bare
    [return] of the callback and the filter take the plugin out of the
    list, nothing takes its functions out of the registries. *)
Theorem dropped_plugin_stays_registered require pre pn post p entries key d w :
  resolvable require (pre ++ pn :: post) ->
  plain require (pre ++ pn :: post) (metadata (rt w)) ->
  require pn = Some p ->
  Plugin.decoratePlugin p = Some entries ->
  In (key, d) entries ->
  is_internal key = false ->
  fold_left (metadata_after require) (pre ++ [pn]) (metadata (rt w)) !! key = None ->
  exists w' c reg,
    loadPlugins (pre ++ pn :: post) require w = (Return tt, w')
    /\ plugins (rt w')
       = Some (filter_loaded (load_results require (metadata (rt w)) pre)
               ++ filter_loaded
                    (load_results require
                       (fold_left (metadata_after require) (pre ++ [pn]) (metadata (rt w)))
                       post))
    /\ connectors (rt w') = Some c
    /\ routePropsDecorators (rt w') = Some reg
    /\ (forall m, Plugin.middleware p = Some m ->
          exists ms, middlewares (rt w') = Some ms /\ In (tag_of p m) ms)
    /\ (forall m, Plugin.mapPanelState p = Some m ->
          In (tag_of p m) (Connector.state (Panel c)))
    /\ (forall m, Plugin.mapAppState p = Some m ->
          In (tag_of p m) (Connector.state (App c)))
    /\ (forall m, Plugin.mapPanelDispatch p = Some m ->
          In (tag_of p m) (Connector.dispatch (Panel c)))
    /\ (forall m, Plugin.mapAppDispatch p = Some m ->
          In (tag_of p m) (Connector.dispatch (App c)))
    /\ (forall routes k f, Plugin.getRouteProps p = Some routes ->
          In (k, f) routes -> is_internal k = false ->
          exists l, reg !! k = Some l /\ In (untagged f) l)
    /\ (forall f, Plugin.getPanelProps p = Some f ->
          exists l, panelPropsDecorators (rt w') = Some l /\ In (tag_of p f) l)
    /\ (forall f, Plugin.reduceChain p = Some f ->
          exists l, chainReducers (rt w') = Some l /\ In (tag_of p f) l)
    /\ (forall f, Plugin.reduceNode p = Some f ->
          exists l, nodeReducers (rt w') = Some l /\ In (tag_of p f) l)
    /\ (forall f, Plugin.addSocketsConstants p = Some f ->
          exists l, extendConstants (rt w') !! "sockets" = Some l /\ In (tag_of p f) l).
Proof.
  intros Hres Hplain Hreq Hdec Hin Hint Hkey.
  assert (Hpn : In pn (pre ++ pn :: post)) by (apply in_app_iff; right; now left).
  eexists _, _, _. split; [apply (loadPlugins_run require _ w Hres Hplain)|].
  unfold loaded, panelPropsDecorators, chainReducers, nodeReducers.
  cbn [rt registered plugins connectors routePropsDecorators middlewares
       propsDecorators reducersDecorators extendConstants set_plugins
       App Panel Connector.state Connector.dispatch].
  split.
  { f_equal. apply load_results_dropped.
    rewrite fold_left_app in Hkey. simpl in Hkey.
    eapply missing_dependency_result; eassumption. }
  split; [reflexivity|]. split; [reflexivity|].
  repeat match goal with |- _ /\ _ => split end.
  - intros m Hm. eexists. split; [reflexivity|]. eapply exported_In; eassumption.
  - intros m Hm. eapply exported_In; eassumption.
  - intros m Hm. eapply exported_In; eassumption.
  - intros m Hm. eapply exported_In; eassumption.
  - intros m Hm. eapply exported_In; eassumption.
  - intros routes k f Hroutes Hkf Hk. apply add_route_In; [|exact Hk].
    apply in_flat_map. exists pn. split; [exact Hpn|].
    unfold route_entries. now rewrite Hreq, Hroutes.
  - intros f Hf. eexists. split; [apply lookup_singleton_eq|]. eapply exported_In; eassumption.
  - intros f Hf. eexists. split; [apply lookup_insert_eq|]. eapply exported_In; eassumption.
  - intros f Hf. eexists. split.
    + rewrite lookup_insert_ne by discriminate. apply lookup_singleton_eq.
    + eapply exported_In; eassumption.
  - intros f Hf. eexists. split; [apply lookup_singleton_eq|]. eapply exported_In; eassumption.
Qed.

Lemma dropped_plugin_stays_registered_witness :
  exists w' ms,
    loadPlugins ["parent"; "orphan"; "child"] Samples.require Samples.fresh = (Return tt, w')
    /\ middlewares (rt w') = Some ms
    /\ In (Tagged (Samples.announcing "orphan") (Some "orphan") (Some "1.0.0")) ms.
Proof.
  destruct (dropped_plugin_stays_registered Samples.require ["parent"] "orphan" ["child"]
              (Samples.decorating "orphan" "absent")
              [("absent", VFunction "decorate:orphan")] "absent"
              (VFunction "decorate:orphan") Samples.fresh)
    as (w' & c & reg & Hload & _ & _ & _ & Hmw & _).
  - repeat constructor; eexists; reflexivity.
  - split; reflexivity.
  - reflexivity.
  - reflexivity.
  - left. reflexivity.
  - reflexivity.
  - vm_compute. reflexivity.
  - destruct (Hmw (Samples.announcing "orphan") eq_refl) as (ms & Hms & Hin).
    exists w', ms. repeat split; assumption.
Defined.

(** The same on the sample plugins: [orphan] is dropped for its missing
    dependency, yet its middleware is in the middleware list after the
    load and runs on the next dispatched action, after the one of
    [parent]. *)
Lemma dropped_plugin_middleware_still_runs :
  exists w',
    loadPlugins ["parent"; "orphan"] Samples.require Samples.fresh = (Return tt, w')
    /\ plugins (rt w') = Some [tag_of Samples.parent Samples.parent]
    /\ middlewares (rt w')
       = Some [Tagged (Samples.announcing "parent") (Some "parent") (Some "1.0.0");
               Tagged (Samples.announcing "orphan") (Some "orphan") (Some "1.0.0")]
    /\ pluginMiddleware Samples.store (fun a => ret a) (VObject [("type", VString "PING")]) w'
       = (Return VUndefined,
          {| rt := rt w';
             out := out w' ++ [[VString "parent"]; [VString "orphan"]] |}).
Proof.
  eexists. split.
  - apply loadPlugins_run; [repeat constructor; eexists; reflexivity | split; reflexivity].
  - split; [vm_compute; reflexivity|]. split; reflexivity.
Qed.

(** C5, on the registry where the code departs from it: the plugin
    decorator registry is the one registry filled by [push] that the
    opening of [loadPlugins] does not assign afresh.  After a first load
    in which [child] decorates [parent], the reset that opens a second
    load leaves the decorator under [parent], and the second load pushes
    it once more: the parent is handed the same child decorator twice. *)
Lemma plugin_decorators_survive_reload :
  exists w1 w2,
    loadPlugins ["parent"; "child"] Samples.require Samples.fresh = (Return tt, w1)
    /\ pluginDecorators (rt w1) !! "parent" = Some [VFunction "decorate:child"]
    /\ pluginDecorators (reset (rt w1)) !! "parent" = Some [VFunction "decorate:child"]
    /\ loadPlugins ["parent"; "child"] Samples.require w1 = (Return tt, w2)
    /\ pluginDecorators (rt w2) !! "parent"
       = Some [VFunction "decorate:child"; VFunction "decorate:child"].
Proof.
  eexists _, _. split.
  - apply loadPlugins_run; [repeat constructor; eexists; reflexivity | split; reflexivity].
  - split; [vm_compute; reflexivity|]. split; [vm_compute; reflexivity|]. split.
    + apply loadPlugins_run; [repeat constructor; eexists; reflexivity | split; reflexivity].
    + vm_compute. reflexivity.
Qed.

(** What a load resets and what it keeps, on a [plain] configuration: every
    call of [loadPlugins], whatever the
    state left by earlier calls, first assigns fresh empty values to the
    connectors of
    [App] and [Panel], to [extendConstants], to the panel and route prop
    decorator registries, to the chain and node reducer decorator
    registries and to the middleware list, and runs the plugins in that
    state; so the registries it leaves are those a load from the freshly
    evaluated module leaves.  The plugin decorator registry, the decorated
    component cache and the metadata map are not reset: the cache is
    untouched, every metadata key stays, and every array of plugin
    decorators keeps its elements. *)
Theorem loadPlugins_resets_per_load_registries require names w :
  resolvable require names ->
  plain require names (metadata (rt w)) ->
  let r := reset (rt w) in
  loadPlugins names require w
  = bind (mapM (loadPlugin require) names)
      (fun results => assign (set_plugins (Some (filter_loaded results))))
      {| rt := r; out := out w |}
  /\ connectors r = Some {| App := Connector.empty; Panel := Connector.empty |}
  /\ Connector.empty = {| Connector.state := []; Connector.dispatch := [] |}
  /\ extendConstants r = {[ "sockets" := [] ]}
  /\ propsDecorators r = {[ "getPanelProps" := [] ]}
  /\ panelPropsDecorators r = Some []
  /\ routePropsDecorators r = Some ∅
  /\ chainReducers r = Some []
  /\ nodeReducers r = Some []
  /\ middlewares r = Some []
  /\ pluginDecorators r = pluginDecorators (rt w)
  /\ decorated r = decorated (rt w)
  /\ metadata r = metadata (rt w)
  /\ exists w' fresh',
       loadPlugins names require w = (Return tt, w')
       /\ loadPlugins names require {| rt := initial; out := [] |} = (Return tt, fresh')
       /\ connectors (rt w') = connectors (rt fresh')
       /\ extendConstants (rt w') = extendConstants (rt fresh')
       /\ propsDecorators (rt w') = propsDecorators (rt fresh')
       /\ routePropsDecorators (rt w') = routePropsDecorators (rt fresh')
       /\ reducersDecorators (rt w') = reducersDecorators (rt fresh')
       /\ middlewares (rt w') = middlewares (rt fresh')
       /\ decorated (rt w') = decorated (rt w)
       /\ (forall k, is_Some (metadata (rt w) !! k) -> is_Some (metadata (rt w') !! k))
       /\ extends (pluginDecorators (rt w)) (pluginDecorators (rt w')).
Proof.
  intros Hres Hplain r.
  split; [reflexivity|].
  split; [reflexivity|]. split; [reflexivity|]. split; [reflexivity|].
  split; [reflexivity|].
  split; [apply lookup_singleton_eq|]. split; [reflexivity|].
  split; [apply lookup_insert_eq|].
  split; [unfold nodeReducers; cbn [r reset reducersDecorators];
          rewrite lookup_insert_ne by discriminate; apply lookup_singleton_eq|].
  split; [reflexivity|]. split; [reflexivity|]. split; [reflexivity|].
  split; [reflexivity|].
  eexists _, _.
  split; [apply (loadPlugins_run require names w Hres Hplain)|].
  split; [apply (loadPlugins_run require names _ Hres);
          split; [apply lookup_empty | exact (proj2 Hplain)]|].
  repeat match goal with |- _ /\ _ => split end; try reflexivity.
  - intros k Hk. cbn [rt loaded registered metadata set_plugins].
    now apply metadata_loaded_keeps.
  - cbn [rt loaded registered pluginDecorators set_plugins].
    apply extends_plugin_decorators_loaded.
Qed.

Lemma loadPlugins_resets_per_load_registries_witness :
  exists w',
    loadPlugins ["parent"; "child"] Samples.require Samples.fresh = (Return tt, w')
    /\ middlewares (reset (rt w')) = Some [].
Proof.
  assert (Hres : resolvable Samples.require ["parent"; "child"])
    by (repeat constructor; eexists; reflexivity).
  destruct (loadPlugins_resets_per_load_registries Samples.require ["parent"; "child"]
              Samples.fresh Hres (conj eq_refl eq_refl))
    as (_ & _ & _ & _ & _ & _ & _ & _ & _ & _ & _ & _ & _ & w' & fresh' & Hload & _).
  exists w'. split; [exact Hload | reflexivity].
Defined.

(** ** decorateReducer *)

Lemma assoc_set_same k v props : assoc k (assoc_set k v props) = Some v.
Proof.
  induction props as [|[k' v'] props IH]; simpl.
  - now rewrite String.eqb_refl.
  - destruct (String.eqb k k') eqn:Hk; simpl.
    + now rewrite String.eqb_refl.
    + now rewrite Hk.
Qed.

Lemma setting_sets_key k v name version :
  sets_key (Tagged (Samples.setting k v) name version) k v.
Proof.
  intros state action c. unfold Samples.setting, object_assign_fresh. simpl.
  eexists _, _. split; [reflexivity | apply assoc_set_same].
Qed.

(** C6: whatever the base reducer, the state and the action, with no
    chain-reducer decorator registered [decorateReducer(baseReducer,
    "chainReducer")] returns [Immutable(baseReducer(state, action))], and
    throws what the base reducer throws; with one registered decorator
    that sets key [k] to [v], the returned reducer yields an object whose
    [k] is [v], whatever the base reducer returned. *)
Theorem decorateReducer_chain Immutable (baseReducer : reducer_fn) state action w decorators :
  reducersDecorators (rt w) !! "chainReducer" = Some decorators ->
  (decorators = [] ->
     decorateReducer Immutable baseReducer "chainReducer" state action w
     = liftc (do r <- baseReducer state action ;; ret (Immutable r)) w)
  /\ (forall decorator k v r c',
        decorators = [decorator] ->
        sets_key decorator k v ->
        baseReducer state action (out w) = (Return r, c') ->
        exists props c'',
          decorateReducer Immutable baseReducer "chainReducer" state action w
          = (Return (VObject props), {| rt := rt w; out := c'' |})
          /\ assoc k props = Some v).
Proof.
  intros Hreg. split.
  - intros ->. unfold decorateReducer.
    erewrite bind_Return by reflexivity. cbv beta. rewrite (lookup_key_Own _ _ _ Hreg). reflexivity.
  - intros decorator k v r c' -> Hsets Hbase.
    destruct (Hsets (Immutable r) action c') as (props & c'' & Hrun & Hk).
    exists props, c''. split; [|exact Hk].
    unfold decorateReducer. erewrite bind_Return by reflexivity. cbv beta. rewrite (lookup_key_Own _ _ _ Hreg).
    apply liftc_run. erewrite bind_Return by exact Hbase. simpl.
    erewrite bind_Return by exact Hrun. reflexivity.
Qed.

Lemma decorateReducer_chain_witness :
  exists props c,
    decorateReducer (fun v => v) (fun _ _ => ret (VObject [("height", VString "base")]))
      "chainReducer" VUndefined (VObject [])
      {| rt := set_reducersDecorators
                 {[ "chainReducer" :=
                      [Tagged (Samples.setting "height" (VString "decorated")) None None] ]}
                 initial;
         out := [] |}
    = (Return (VObject props),
       {| rt := set_reducersDecorators
                  {[ "chainReducer" :=
                       [Tagged (Samples.setting "height" (VString "decorated")) None None] ]}
                  initial;
          out := c |})
    /\ assoc "height" props = Some (VString "decorated").
Proof.
  refine (proj2 (decorateReducer_chain (fun v => v)
                   (fun _ _ => ret (VObject [("height", VString "base")]))
                   VUndefined (VObject [])
                   {| rt := set_reducersDecorators
                              {[ "chainReducer" :=
                                   [Tagged (Samples.setting "height" (VString "decorated"))
                                      None None] ]}
                              initial;
                      out := [] |}
                   _ _)
            _ "height" (VString "decorated") _ _ eq_refl _ eq_refl).
  - apply lookup_singleton_eq.
  - apply setting_sets_key.
Defined.

(** ** getConstants *)

Lemma appending_appends entry name version :
  appends_listener (Tagged (Samples.appending entry) name version) entry.
Proof.
  intros props ls c H. unfold Samples.appending. simpl. rewrite H.
  eexists _, _. split; [reflexivity | apply assoc_set_same].
Qed.

(** C7: with no transform registered, [getConstants("sockets")] returns
    the sockets namespace of the constants registry as it is and touches
    nothing; with exactly one registered transform that appends the entry
    [{event: "x", actionType: "Y"}] to the listeners, the [listeners] of
    the returned namespace is the default entry
    [{event: "new block", actionType: SET_CHAIN_TIP}] followed by the
    appended one. *)
Theorem getConstants_sockets i w transforms :
  extendConstants (rt w) !! "sockets" = Some transforms ->
  (transforms = [] ->
     getConstants i "sockets" w
     = (Return (Sockets.namespace (Constants.SET_CHAIN_TIP i)), w))
  /\ (forall transform,
        transforms = [transform] ->
        appends_listener transform (Sockets.listener "x" "Y") ->
        exists props c',
          getConstants i "sockets" w
          = (Return (VObject props), {| rt := rt w; out := c' |})
          /\ assoc "listeners" props
             = Some (VArray [Sockets.listener "new block" (Constants.SET_CHAIN_TIP i);
                             Sockets.listener "x" "Y"])).
Proof.
  intros Hreg. split.
  - intros ->. unfold getConstants.
    erewrite bind_Return by reflexivity. cbv beta. rewrite (lookup_key_Own _ _ _ Hreg).
    destruct w; reflexivity.
  - intros transform -> Happ.
    destruct (Happ [("CONNECT_SOCKET", VString Sockets.CONNECT_SOCKET);
                    ("DISCONNECT_SOCKET", VString Sockets.DISCONNECT_SOCKET);
                    ("listeners", VArray (Sockets.listeners (Constants.SET_CHAIN_TIP i)))]
                (Sockets.listeners (Constants.SET_CHAIN_TIP i)) (out w) eq_refl)
      as (props & c' & Hrun & Hls).
    exists props, c'. split; [|exact Hls].
    unfold getConstants. erewrite bind_Return by reflexivity. cbv beta. rewrite (lookup_key_Own _ _ _ Hreg).
    apply liftc_run. simpl. erewrite bind_Return by exact Hrun. reflexivity.
Qed.

Lemma getConstants_sockets_witness :
  getConstants Samples.imports "sockets" {| rt := reset initial; out := [] |}
  = (Return (Sockets.namespace "SET_CHAIN_TIP"), {| rt := reset initial; out := [] |}).
Proof.
  refine (proj1 (getConstants_sockets Samples.imports
                   {| rt := reset initial; out := [] |} [] _) eq_refl).
  apply lookup_singleton_eq.
Defined.

(** The two properties on a page that went through [loadPlugins]: with
    [parent] alone no transform is registered; with [child], whose
    transform appends [{event: "x", actionType: "Y"}], the listeners are the
    default entry and then the appended one. *)
Example getConstants_after_load :
  (exists w,
     loadPlugins ["parent"] Samples.require Samples.fresh = (Return tt, w)
     /\ getConstants Samples.imports "sockets" w
        = (Return (Sockets.namespace "SET_CHAIN_TIP"), w))
  /\ (exists w,
        loadPlugins ["parent"; "child"] Samples.require Samples.fresh = (Return tt, w)
        /\ getConstants Samples.imports "sockets" w
           = (Return
                (VObject
                   [("CONNECT_SOCKET", VString "CONNECT_SOCKET");
                    ("DISCONNECT_SOCKET", VString "DISCONNECT_SOCKET");
                    ("listeners",
                     VArray [Sockets.listener "new block" "SET_CHAIN_TIP";
                             Sockets.listener "x" "Y"])]),
              w)).
Proof.
  split; eexists; (split; [apply loadPlugins_run; [repeat constructor; eexists; reflexivity | split; reflexivity]|]).
  - unfold getConstants. erewrite bind_Return by reflexivity. cbv beta.
    unfold loaded. norm. cbn [registered extendConstants].
    erewrite lookup_key_Own by apply lookup_singleton_eq. reflexivity.
  - unfold getConstants. erewrite bind_Return by reflexivity. cbv beta.
    unfold loaded. norm. cbn [registered extendConstants].
    erewrite lookup_key_Own by apply lookup_singleton_eq. reflexivity.
Qed.

(** ** getRouteProps *)

Lemma route_registry_undeclared require names name :
  undeclared_route require names name ->
  fold_left add_route (flat_map (route_entries require) names) ∅ !! name = None.
Proof.
  intros Hun. apply add_route_None; [apply lookup_empty|].
  intros k f Hin Hint ->.
  apply in_flat_map in Hin as (pn & Hpn & Hentry).
  unfold route_entries in Hentry.
  destruct (require pn) as [p|] eqn:Hreq; [|destruct Hentry].
  destruct (Plugin.getRouteProps p) as [routes|] eqn:Hroutes; [|destruct Hentry].
  simpl in Hentry. rewrite (Hun pn p routes f Hpn Hreq Hroutes Hentry) in Hint.
  discriminate.
Qed.

(** For a route name that is no member of [Object.prototype] and under
    which the route registry has no entry, and any [parentProps], [props]
    and extra arguments, [getRouteProps] returns [parentProps] itself and
    nothing else happens: the reducing callback is not consulted and the
    console is untouched.  The registry has no entry for a name whenever
    no configured plugin declared route props for it. *)
Lemma getRouteProps_unregistered propsReducerCallback name parentProps props fnArgs
    w registry :
  routePropsDecorators (rt w) = Some registry ->
  registry !! name = None ->
  inherited name = false ->
  getRouteProps propsReducerCallback name parentProps props fnArgs w
  = (Return parentProps, w).
Proof.
  intros Hreg Hname Hplain. unfold getRouteProps.
  erewrite bind_Return by reflexivity. cbv beta.
  rewrite Hreg, lookup_key_plain, Hname by exact Hplain. reflexivity.
Qed.

(** C8, on the names where the code departs from it: a route name that
    every object inherits from [Object.prototype], such as [constructor]
    or [toString], and for which no plugin registered route-prop
    decorators.  The test [!routePropsDecorators[name]] finds the
    inherited member, so [getRouteProps] goes on to call its [reduce],
    which it does not have: the call throws a [TypeError] instead of
    returning [parentProps].  For every other unregistered name it
    returns [parentProps] (lemma [getRouteProps_unregistered]). *)
Theorem getRouteProps_inherited_name_throws propsReducerCallback name parentProps props
    fnArgs w registry :
  routePropsDecorators (rt w) = Some registry ->
  registry !! name = None ->
  inherited name = true ->
  getRouteProps propsReducerCallback name parentProps props fnArgs w
  = (Throw (TypeError "routePropsDecorators[name].reduce is not a function"), w).
Proof.
  intros Hreg Hname Hin. unfold getRouteProps.
  erewrite bind_Return by reflexivity. cbv beta.
  rewrite Hreg. unfold lookup_key. rewrite Hname, Hin. reflexivity.
Qed.

Lemma getRouteProps_inherited_name_throws_witness :
  getRouteProps (fun _ _ _ acc _ => ret acc) "constructor"
    (VObject [("title", VString "Home")]) VUndefined []
    {| rt := reset initial; out := [] |}
  = (Throw (TypeError "routePropsDecorators[name].reduce is not a function"),
     {| rt := reset initial; out := [] |}).
Proof.
  apply (getRouteProps_inherited_name_throws _ _ _ _ _
           {| rt := reset initial; out := [] |} ∅).
  - reflexivity.
  - apply lookup_empty.
  - reflexivity.
Defined.

Lemma getRouteProps_unregistered_witness :
  getRouteProps (fun _ _ _ acc _ => ret acc) "unregistered-route"
    (VObject [("title", VString "Home")]) VUndefined []
    {| rt := reset initial; out := [] |}
  = (Return (VObject [("title", VString "Home")]), {| rt := reset initial; out := [] |}).
Proof.
  apply (getRouteProps_unregistered _ _ _ _ _ {| rt := reset initial; out := [] |} ∅).
  - reflexivity.
  - apply lookup_empty.
  - reflexivity.
Defined.

(** After a load in which no plugin declares route props for [name]. *)
Lemma getRouteProps_undeclared_after_load propsReducerCallback require names name
    parentProps props fnArgs w :
  resolvable require names ->
  plain require names (metadata (rt w)) ->
  undeclared_route require names name ->
  inherited name = false ->
  exists w',
    loadPlugins names require w = (Return tt, w')
    /\ getRouteProps propsReducerCallback name parentProps props fnArgs w'
       = (Return parentProps, w').
Proof.
  intros Hres Hplain Hun Hname. eexists. split; [apply loadPlugins_run; assumption|].
  unfold getRouteProps. erewrite bind_Return by reflexivity. cbv beta.
  unfold loaded. norm. cbn [registered routePropsDecorators].
  rewrite lookup_key_plain, (route_registry_undeclared _ _ _ Hun) by exact Hname.
  reflexivity.
Qed.

(** ** pluginMiddleware *)




(** ** Footer *)

Lemma append_empty_r s : s +:+ EmptyString = s.
Proof.
  induction s as [|c s IH]; [reflexivity|].
  change (String c (s +:+ EmptyString) = String c s). now rewrite IH.
Qed.

Lemma string_app_assoc' (a b c : string) : (a +:+ b) +:+ c = a +:+ (b +:+ c).
Proof.
  induction a as [|x a IH]; [reflexivity|].
  change (String x ((a +:+ b) +:+ c) = String x (a +:+ (b +:+ c))). now rewrite IH.
Qed.

Lemma string_length_app (a b : string) :
  String.length (a +:+ b) = String.length a + String.length b.
Proof.
  induction a as [|x a IH]; [reflexivity|].
  change (S (String.length (a +:+ b)) = S (String.length a + String.length b)).
  now rewrite IH.
Qed.

Lemma string_length_substring s : forall n m,
  n + m <= String.length s -> String.length (substring n m s) = m.
Proof.
  induction s as [|c s IH]; intros n m H.
  - simpl in H. assert (n = 0) as -> by lia. assert (m = 0) as -> by lia. reflexivity.
  - destruct n as [|n].
    + destruct m as [|m]; [reflexivity|].
      change (S (String.length (substring 0 m s)) = S m).
      f_equal. apply IH. simpl in H. lia.
    + change (String.length (substring n m s) = m). apply IH. simpl in H. lia.
Qed.

Lemma all_digits_app (a b : string) :
  Further.all_digits (a +:+ b) = Further.all_digits a && Further.all_digits b.
Proof.
  induction a as [|x a IH]; [reflexivity|].
  change (Further.is_digit x && Further.all_digits (a +:+ b) = Further.is_digit x && Further.all_digits a && Further.all_digits b).
  rewrite IH. now rewrite andb_assoc.
Qed.

Lemma all_digits_substring s : forall n m,
  Further.all_digits s = true -> Further.all_digits (substring n m s) = true.
Proof.
  induction s as [|c s IH]; intros n m H.
  - destruct n, m; reflexivity.
  - simpl in H. apply andb_true_iff in H as [Hc Hs].
    destruct n as [|n].
    + destruct m as [|m]; [reflexivity|].
      change (Further.is_digit c && Further.all_digits (substring 0 m s) = true).
      rewrite Hc. now apply IH.
    + change (Further.all_digits (substring n m s) = true). now apply IH.
Qed.

Lemma all_digits_zeros k : Further.all_digits (Footer.zeros k) = true.
Proof. induction k as [|k IH]; [reflexivity|]. simpl. exact IH. Qed.

Lemma string_length_zeros k : String.length (Footer.zeros k) = k.
Proof. induction k as [|k IH]; [reflexivity|]. simpl. now rewrite IH. Qed.

Lemma all_digits_NilEmpty d : Further.all_digits (NilEmpty.string_of_uint d) = true.
Proof. induction d; simpl; try reflexivity; exact IHd. Qed.

Lemma all_digits_NilZero d : Further.all_digits (NilZero.string_of_uint d) = true.
Proof. destruct d; try reflexivity; apply (all_digits_NilEmpty (_ d)). Qed.

Lemma NilZero_nonempty d : 1 <= String.length (NilZero.string_of_uint d).
Proof. destruct d; simpl; lia. Qed.

Lemma fixed_digits_two n :
  exists whole frac,
    Footer.fixed_digits n 2 = whole +:+ "." +:+ frac
    /\ Further.all_digits whole = true /\ 1 <= String.length whole
    /\ Further.all_digits frac = true /\ String.length frac = 2.
Proof.
  unfold Footer.fixed_digits.
  set (m := NilZero.string_of_uint (N.to_uint (Z.to_N n))).
  assert (Hm : Further.all_digits m = true) by apply all_digits_NilZero.
  assert (Hlen : 1 <= String.length m) by apply NilZero_nonempty.
  set (m' := if (String.length m <=? 2)%nat then Footer.zeros (2 + 1 - String.length m) +:+ m
             else m).
  assert (Hm' : Further.all_digits m' = true).
  { subst m'. destruct (String.length m <=? 2)%nat; [|exact Hm].
    now rewrite all_digits_app, all_digits_zeros, Hm. }
  assert (Hlen' : 3 <= String.length m').
  { subst m'. destruct (String.length m <=? 2)%nat eqn:Hle.
    - apply Nat.leb_le in Hle. rewrite string_length_app, string_length_zeros. lia.
    - apply Nat.leb_gt in Hle. lia. }
  cbv zeta. fold m. fold m'.
  exists (substring 0 (String.length m' - 2) m'), (substring (String.length m' - 2) 2 m').
  split; [reflexivity|].
  split; [now apply all_digits_substring|].
  split; [rewrite string_length_substring; lia|].
  split; [now apply all_digits_substring|].
  rewrite string_length_substring; lia.
Qed.

Lemma sync_text_toFixed style number_to_string string_to_number (p : Footer.props style) :
  Footer.sync_text style number_to_string string_to_number p
  = Footer.toFixed number_to_string
      (Footer.to_number string_to_number (Footer.progress_value style p) * 100)%float 2
    +:+ "% synced".
Proof.
  unfold Footer.sync_text, Footer.render.
  cbn [Footer.find_class Footer.text_content String.eqb Ascii.eqb Bool.eqb
       String.append andb].
  now rewrite append_empty_r.
Qed.

Lemma toFixed_two_decimals number_to_string x :
  Further.displayable x ->
  exists sign whole frac,
    Footer.toFixed number_to_string x 2 +:+ "% synced"
    = sign +:+ whole +:+ "." +:+ frac +:+ "% synced"
    /\ (sign = EmptyString \/ sign = "-")
    /\ Further.all_digits whole = true /\ 1 <= String.length whole
    /\ Further.all_digits frac = true /\ String.length frac = 2.
Proof.
  intros Hx. unfold Further.displayable in Hx. unfold Footer.toFixed.
  destruct (Prim2SF x) as [s0| | |s m e]; try contradiction.
  - destruct (fixed_digits_two 0) as (whole & frac & -> & Hw).
    exists EmptyString, whole, frac. split; [|split; [now left | exact Hw]].
    change (EmptyString +:+ whole +:+ "." +:+ frac +:+ "% synced")
      with (whole +:+ "." +:+ frac +:+ "% synced").
    now rewrite !string_app_assoc'.
  - rewrite Hx.
    destruct (fixed_digits_two (Footer.scaled_nearest m e 2)) as (whole & frac & -> & Hw).
    exists (if s then "-" else EmptyString), whole, frac.
    split; [|split; [destruct s; auto | exact Hw]].
    now rewrite !string_app_assoc'.
Qed.

(** C9: the text of the progress column is [progress * 100] formatted by
    [toFixed(2)] followed by ["% synced"].  Whenever the percentage is a
    finite number below [10^21] in magnitude, that is an optional minus
    sign, one or more digits, a point and exactly two digits before the
    suffix.  It is ["50.00% synced"] for a progress of 0.5,
    ["100.00% synced"] for 1, ["12.35% synced"] for 0.12345, and, with
    the digits padded, ["0.00% synced"] for 0 and ["0.10% synced"] for
    0.001. *)
Theorem footer_sync_text style number_to_string string_to_number
    (th : Footer.theme_footer style) (version : string) :
  let shown progress :=
    Footer.sync_text style number_to_string string_to_number
      {| Footer.theme := th; Footer.version := version;
         Footer.progress_value := progress |} in
  (forall progress,
     shown progress
     = Footer.toFixed number_to_string
         (Footer.to_number string_to_number progress * 100)%float 2
       +:+ "% synced")
  /\ (forall progress,
        Further.displayable (Footer.to_number string_to_number progress * 100)%float ->
        exists sign whole frac,
          shown progress = sign +:+ whole +:+ "." +:+ frac +:+ "% synced"
          /\ (sign = EmptyString \/ sign = "-")
          /\ Further.all_digits whole = true /\ 1 <= String.length whole
          /\ Further.all_digits frac = true /\ String.length frac = 2)
  /\ shown (Footer.ProgressNumber 0.5%float) = "50.00% synced"
  /\ shown (Footer.ProgressNumber 1%float) = "100.00% synced"
  /\ shown (Footer.ProgressNumber 0.12345%float) = "12.35% synced"
  /\ shown (Footer.ProgressNumber 0%float) = "0.00% synced"
  /\ shown (Footer.ProgressNumber 0.001%float) = "0.10% synced".
Proof.
  intros shown.
  assert (Hshown : forall progress,
             shown progress
             = Footer.toFixed number_to_string
                 (Footer.to_number string_to_number progress * 100)%float 2
               +:+ "% synced").
  { intros progress. subst shown. unfold Footer.sync_text, Footer.render.
    cbn [Footer.find_class Footer.text_content String.eqb Ascii.eqb Bool.eqb
         String.append andb Footer.progress_value].
    now rewrite append_empty_r. }
  split; [exact Hshown|].
  split; [intros progress Hx; rewrite Hshown; now apply toFixed_two_decimals|].
  repeat match goal with |- _ /\ _ => split end; vm_compute; reflexivity.
Qed.

(** ** The loaded page at work *)

(** After a load of [parent] and [child], the state derived for [App]
    starts from [{}] and receives the contribution of [child]; nothing is
    logged. *)
Example connect_state_after_load :
  exists w,
    loadPlugins ["parent"; "child"] Samples.require Samples.fresh = (Return tt, w)
    /\ out w = []
    /\ connect_state None "App" (VObject []) w
       = (Return (VObject [("app", VString "child")]), w)
    /\ connect_dispatch None "Panel" (VFunction "dispatch") w
       = (Return (VObject [("panelAction", VFunction "child")]), w).
Proof.
  eexists. split; [apply loadPlugins_run; [repeat constructor; eexists; reflexivity | split; reflexivity]|].
  split; [vm_compute; reflexivity|]. split; reflexivity.
Qed.

(* ===================================================================== *)
(** * Further properties of the plugin runtime                            *)
(* ===================================================================== *)

Import Further.

(** ** Metadata *)






(** ** Plugins that are kept *)

Lemma In_filter_loaded x l : In x (filter_loaded l) <-> In (Some x) l.
Proof.
  unfold filter_loaded. rewrite <- !list_elem_of_In, list_elem_of_omap. split.
  - intros (o & Ho & Hx). destruct o; simpl in Hx; [|discriminate].
    now inversion Hx; subst.
  - intros H. exists (Some x). split; [exact H | reflexivity].
Qed.








(** ** Keys that start with an underscore *)







(** ** The route registry *)




(** ** The registries after a load *)




(** ** A module that cannot be resolved *)




(** ** Loading again *)

Lemma covers_metadata_after require md md' pn :
  covers md md' -> covers (metadata_after require md pn) (metadata_after require md' pn).
Proof.
  intros H k. unfold metadata_after.
  destruct (require pn) as [p|]; [|apply H].
  destruct (Plugin.metadata p) as [m|]; [|apply H].
  destruct (decide (pn = k)) as [->|Hne].
  - rewrite !lookup_insert_eq. eauto.
  - rewrite !lookup_insert_ne by assumption. apply H.
Qed.

Lemma first_missing_covers md md' entries :
  covers md md' -> first_missing md entries = None -> first_missing md' entries = None.
Proof.
  intros H. induction entries as [|[key d] entries IH]; simpl; [reflexivity|].
  destruct (is_internal key); [exact IH|].
  destruct (md !! key) as [m|] eqn:Hk; [|discriminate].
  destruct (H key) as [m' ->]; [eauto|]. exact IH.
Qed.

Lemma load_result_covers require md md' pn x :
  covers md md' -> load_result require md pn = Some x -> load_result require md' pn = Some x.
Proof.
  intros H. unfold load_result, missing_dependency.
  destruct (require pn) as [p|]; [|discriminate].
  destruct (first_missing (metadata_after require md pn) _) eqn:Hm; [discriminate|].
  intros Hx.
  now rewrite (first_missing_covers _ _ _ (covers_metadata_after require _ _ pn H) Hm).
Qed.

Lemma load_results_covers require names : forall md md' x,
  covers md md' ->
  In (Some x) (load_results require md names) ->
  In (Some x) (load_results require md' names).
Proof.
  induction names as [|pn names IH]; intros md md' x H; simpl; [tauto|].
  intros [Hx|Hx].
  - left. eapply load_result_covers; eassumption.
  - right. eapply IH; [|exact Hx]. now apply covers_metadata_after.
Qed.

(** X8: loading the same configuration again, a [plain] one, never loses a
    plugin.  The
    metadata map is not reset, so every dependency that was found by the
    first load is found by the second; every plugin that is in the
    loaded-plugin list after the first load is in it after the second. *)
Theorem reload_keeps_plugins require names w w1 :
  resolvable require names ->
  plain require names (metadata (rt w)) ->
  loadPlugins names require w = (Return tt, w1) ->
  exists w2 first second,
    loadPlugins names require w1 = (Return tt, w2)
    /\ plugins (rt w1) = Some first
    /\ plugins (rt w2) = Some second
    /\ forall x, In x first -> In x second.
Proof.
  intros Hres Hplain Hload.
  rewrite (loadPlugins_run require names w Hres Hplain) in Hload.
  inversion Hload; subst w1; clear Hload.
  eexists _, _, _.
  split; [apply loadPlugins_run;
          [exact Hres | split; [now apply loaded_proto | exact (proj2 Hplain)]]|].
  unfold loaded. norm. cbn [registered metadata].
  split; [reflexivity|]. split; [reflexivity|].
  intros x Hx. apply In_filter_loaded. apply In_filter_loaded in Hx.
  eapply load_results_covers; [|exact Hx].
  intros k. apply metadata_loaded_keeps.
Qed.

(** A configuration that names the child before its parent: the first
    load drops [child], the second keeps it. *)
Lemma reload_keeps_plugins_witness :
  exists w1 w2,
    loadPlugins ["child"; "parent"] Samples.require Samples.fresh = (Return tt, w1)
    /\ loadPlugins ["child"; "parent"] Samples.require w1 = (Return tt, w2)
    /\ plugins (rt w1) = Some [tag_of Samples.parent Samples.parent]
    /\ plugins (rt w2)
       = Some [tag_of (Samples.decorating "child" "parent")
                 (Samples.decorating "child" "parent");
               tag_of Samples.parent Samples.parent].
Proof.
  assert (Hres : resolvable Samples.require ["child"; "parent"])
    by (repeat constructor; eexists; reflexivity).
  assert (Hplain : plain Samples.require ["child"; "parent"] (metadata (rt Samples.fresh)))
    by (split; reflexivity).
  destruct (reload_keeps_plugins Samples.require ["child"; "parent"] Samples.fresh _
              Hres Hplain (loadPlugins_run Samples.require _ Samples.fresh Hres Hplain))
    as (w2 & first & second & Hload2 & _).
  eexists _, w2. split; [apply loadPlugins_run; assumption|].
  split; [exact Hload2|].
  rewrite (loadPlugins_run Samples.require _ _ Hres) in Hload2
    by (split; [now apply loaded_proto | reflexivity]).
  inversion Hload2; subst w2. split; vm_compute; reflexivity.
Defined.

(** ** connect: what the folds yield *)

Lemma invalid_return_false v :
  invalid_return v = false <-> truthy v = true /\ typeof v = "object".
Proof.
  unfold invalid_return. rewrite orb_false_iff, !negb_false_iff, String.eqb_eq. tauto.
Qed.

Lemma state_step_result name arg acc mapper c v c' :
  connect_state_step name arg acc mapper c = (Return v, c') ->
  v = VUndefined \/ invalid_return v = false.
Proof.
  unfold connect_state_step, bind, try_catch, of_outcome, console_error, ret.
  destruct (fn mapper arg acc c) as [[r|e] c1].
  - destruct (invalid_return r) eqn:Hr; intros [= <- <-]; auto.
  - destruct (member_stack e) as [stack|te]; [|discriminate].
    destruct (invalid_return acc) eqn:Hacc; intros [= <- <-]; auto.
Qed.

Lemma reduce_last_result {S A B} (step : A -> B -> M S A) l x init s v s' :
  reduce step (l ++ [x]) init s = (Return v, s') ->
  exists acc s1, step acc x s1 = (Return v, s').
Proof.
  rewrite reduce_app. unfold bind.
  destruct (reduce step l init s) as [[acc|e] s1]; [|discriminate].
  simpl. unfold bind, ret. intros H. exists acc, s1.
  destruct (step acc x s1) as [[a|e] s2]; [exact H | discriminate].
Qed.

Lemma liftc_Return_inv {A} (c : eff A) w v w' :
  liftc c w = (Return v, w') ->
  exists c', c (out w) = (Return v, c') /\ w' = {| rt := rt w; out := c' |}.
Proof.
  unfold liftc. destruct (c (out w)) as [o c']. intros [= -> <-]. eauto.
Qed.

(** X9: as soon as one state mapper is registered for a mount point, the
    state that [connect] derives for it is either [undefined] or an
    object, whatever [stateFn] and the mappers return, for every step of
    the fold ends either in a checked object or in [undefined].  The same
    holds for the dispatch props. *)
Theorem connect_yields_object_or_undefined stateFn name arg w cs k :
  connectors (rt w) = Some cs ->
  connectors_get cs name = Some k ->
  (Connector.state k <> [] ->
   forall v w',
     connect_state stateFn name arg w = (Return v, w') ->
     v = VUndefined \/ (truthy v = true /\ typeof v = "object"))
  /\ (Connector.dispatch k <> [] ->
      forall v w',
        connect_dispatch stateFn name arg w = (Return v, w') ->
        v = VUndefined \/ (truthy v = true /\ typeof v = "object")).
Proof.
  intros Hcs Hk. split; intros Hne v w' Hrun.
  - unfold connect_state in Hrun. erewrite bind_Return in Hrun by reflexivity.
    cbv beta in Hrun. rewrite Hcs, Hk in Hrun.
    apply liftc_Return_inv in Hrun as (c' & Hrun & _).
    unfold bind in Hrun.
    destruct (default default_fn stateFn arg (out w)) as [[init|e] c1]; [|discriminate].
    destruct (exists_last Hne) as (l & m & Hl). rewrite Hl in Hrun.
    apply reduce_last_result in Hrun as (acc & s1 & Hstep).
    apply state_step_result in Hstep as [->|Hv]; [now left|].
    right. now apply invalid_return_false.
  - unfold connect_dispatch in Hrun. erewrite bind_Return in Hrun by reflexivity.
    cbv beta in Hrun. rewrite Hcs, Hk in Hrun.
    apply liftc_Return_inv in Hrun as (c' & Hrun & _).
    unfold bind in Hrun.
    destruct (default default_fn stateFn arg (out w)) as [[init|e] c1]; [|discriminate].
    destruct (exists_last Hne) as (l & m & Hl). rewrite Hl in Hrun.
    apply reduce_last_result in Hrun as (acc & s1 & Hstep).
    apply state_step_result in Hstep as [->|Hv]; [now left|].
    right. now apply invalid_return_false.
Qed.

Lemma connect_yields_object_or_undefined_witness :
  exists v w',
    connect_state (Some (fun _ => ret (VNumber 1%float))) "App" VNull
      (Samples.with_App_state [untagged (Samples.returning (VString "oops"))])
    = (Return v, w')
    /\ (v = VUndefined \/ (truthy v = true /\ typeof v = "object")).
Proof.
  eexists _, _. split; [reflexivity|].
  eapply (proj1 (connect_yields_object_or_undefined
                   (Some (fun _ => ret (VNumber 1%float))) "App" VNull
                   (Samples.with_App_state [untagged (Samples.returning (VString "oops"))])
                   _ _ eq_refl eq_refl)).
  - discriminate.
  - reflexivity.
Defined.

Lemma state_step_behaved name arg acc mapper c :
  returns_object arg mapper ->
  connect_state_step name arg acc mapper c = fn mapper arg acc c.
Proof.
  intros H. destruct (H acc c) as (v & c' & Hrun & Hv).
  rewrite (state_step_returned _ _ _ _ _ _ _ Hrun), Hv. now rewrite Hrun.
Qed.

Lemma state_fold_behaved name arg ms : forall init c,
  Forall (returns_object arg) ms ->
  reduce (connect_state_step name arg) ms init c
  = reduce (fun acc mapper => fn mapper arg acc) ms init c.
Proof.
  induction ms as [|m ms IH]; intros init c Hall; [reflexivity|].
  apply Forall_cons in Hall as [Hm Hms]. simpl. unfold bind.
  rewrite (state_step_behaved _ _ _ _ _ Hm).
  destruct (fn m arg init c) as [[v|e] c1]; [now apply IH | reflexivity].
Qed.

(** X10: when every mapper registered for a mount point returns an object
    whatever accumulator it is given, [connect] adds nothing of its own:
    the derived state is the plain left fold of the mappers, each called
    with the state and the result of the one before, starting from
    [stateFn(state)], and the console receives nothing but what [stateFn]
    and the mappers write.  The same holds for the dispatch props. *)
Theorem connect_with_behaved_mappers stateFn name arg w cs k :
  connectors (rt w) = Some cs ->
  connectors_get cs name = Some k ->
  (Forall (returns_object arg) (Connector.state k) ->
   connect_state stateFn name arg w
   = liftc (do init <- default default_fn stateFn arg ;;
            reduce (fun acc mapper => fn mapper arg acc) (Connector.state k) init) w)
  /\ (Forall (returns_object arg) (Connector.dispatch k) ->
      connect_dispatch stateFn name arg w
      = liftc (do init <- default default_fn stateFn arg ;;
               reduce (fun acc mapper => fn mapper arg acc) (Connector.dispatch k) init) w).
Proof.
  intros Hcs Hk. split; intros Hall.
  - unfold connect_state. erewrite bind_Return by reflexivity. cbv beta.
    rewrite Hcs, Hk. unfold liftc, bind.
    destruct (default default_fn stateFn arg (out w)) as [[init|e] c1]; [|reflexivity].
    now rewrite state_fold_behaved.
  - unfold connect_dispatch. erewrite bind_Return by reflexivity. cbv beta.
    rewrite Hcs, Hk. unfold liftc, bind.
    destruct (default default_fn stateFn arg (out w)) as [[init|e] c1]; [|reflexivity].
    now rewrite (state_fold_behaved name arg).
Qed.

Lemma adding_returns_object arg k v name version :
  returns_object arg (Tagged (Samples.adding k v) name version).
Proof.
  intros acc c. unfold Samples.adding, object_assign_fresh. simpl.
  eexists _, _. split; reflexivity.
Qed.

Lemma connect_with_behaved_mappers_witness :
  connect_state None "App" VNull
    (Samples.with_App_state
       [untagged (Samples.adding "a" (VBool true));
        untagged (Samples.adding "b" (VBool false))])
  = (Return (VObject [("a", VBool true); ("b", VBool false)]),
     Samples.with_App_state
       [untagged (Samples.adding "a" (VBool true));
        untagged (Samples.adding "b" (VBool false))]).
Proof.
  rewrite (proj1 (connect_with_behaved_mappers None "App" VNull
                    (Samples.with_App_state
                       [untagged (Samples.adding "a" (VBool true));
                        untagged (Samples.adding "b" (VBool false))])
                    _ _ eq_refl eq_refl)).
  - reflexivity.
  - repeat constructor; apply adding_returns_object.
Defined.

(** X11: [connect] derives nothing for a mount point that has no
    connector.  Before the first [loadPlugins], and for every mount point
    name other than [App] and [Panel] afterwards, the derived state and
    dispatch functions throw, and they do so before [stateFn] or
    [dispatchFn] is called: the page is left as it is. *)
Theorem connect_without_connector stateFn dispatchFn name arg w :
  connectors (rt w) = None
  \/ (is_Some (connectors (rt w)) /\ name <> "App" /\ name <> "Panel") ->
  exists e e',
    connect_state stateFn name arg w = (Throw e, w)
    /\ connect_dispatch dispatchFn name arg w = (Throw e', w).
Proof.
  intros [Hnone|([cs Hcs] & Happ & Hpanel)].
  - eexists _, _. unfold connect_state, connect_dispatch.
    erewrite !bind_Return by reflexivity. cbv beta. rewrite Hnone. split; reflexivity.
  - assert (Hget : connectors_get cs name = None).
    { unfold connectors_get. apply String.eqb_neq in Happ, Hpanel.
      now rewrite Happ, Hpanel. }
    eexists _, _. unfold connect_state, connect_dispatch.
    erewrite !bind_Return by reflexivity. cbv beta. rewrite Hcs, Hget.
    split; reflexivity.
Qed.

Lemma connect_without_connector_witness :
  exists e,
    connect_state (Some (fun _ => do_ console_error [VString "called"] ;; ret (VObject [])))
      "Footer" VNull (Samples.with_App_state [])
    = (Throw e, Samples.with_App_state []).
Proof.
  destruct (connect_without_connector
              (Some (fun _ => do_ console_error [VString "called"] ;; ret (VObject [])))
              None "Footer" VNull (Samples.with_App_state []))
    as (e & e' & H & _).
  - right. split; [eexists; reflexivity|]. split; discriminate.
  - exists e. exact H.
Defined.

(** ** pluginMiddleware: the order of the chain *)

Lemma nextMiddleware_passing store next pre effects post :
  Forall2 (runs_then_next store) pre effects ->
  forall action c,
    nextMiddleware store next (pre ++ post) action c
    = fold_right (fun effect k => do_ effect action ;; k)
        (nextMiddleware store next post action) effects c.
Proof.
  induction 1 as [|m effect pre effects Hm _ IH]; intros action c; [reflexivity|].
  change (nextMiddleware store next ((m :: pre) ++ post) action c)
    with (fn m store (nextMiddleware store next (pre ++ post)) action c).
  rewrite Hm. simpl. unfold bind.
  destruct (effect action c) as [[[]|e] c1]; [apply IH | reflexivity].
Qed.

Lemma announcing_runs_then_next store label name version :
  runs_then_next store (Tagged (Samples.announcing label) name version)
    (fun _ => console_error [VString label]).
Proof. intros next action c. reflexivity. Qed.

(** X12: middlewares run in the order in which their plugins were loaded.
    When each registered middleware does its own effect on the action and
    then hands the action on, [pluginMiddleware] does the effects in the
    order of the registry, then calls [next] with the action, once, and
    returns [undefined]. *)
Theorem pluginMiddleware_effects_in_order store next action w ms effects :
  middlewares (rt w) = Some ms ->
  Forall2 (runs_then_next store) ms effects ->
  pluginMiddleware store next action w
  = (do_ liftc (fold_right (fun effect k => do_ effect action ;; k)
                  (next action) effects) ;;
     ret VUndefined) w.
Proof.
  intros Hms Hall. unfold pluginMiddleware.
  erewrite bind_Return by reflexivity. cbv beta. rewrite Hms.
  unfold bind, liftc.
  pose proof (nextMiddleware_passing store next ms effects [] Hall action (out w)) as H.
  rewrite app_nil_r in H. simpl in H. now rewrite H.
Qed.

Lemma pluginMiddleware_effects_in_order_witness :
  pluginMiddleware Samples.store (fun a => ret a) (VString "PING")
    (with_middlewares [untagged (Samples.announcing "first");
                       untagged (Samples.announcing "second")])
  = (Return VUndefined,
     {| rt := rt (with_middlewares [untagged (Samples.announcing "first");
                                    untagged (Samples.announcing "second")]);
        out := [[VString "first"]; [VString "second"]] |}).
Proof.
  rewrite (pluginMiddleware_effects_in_order Samples.store (fun a => ret a) (VString "PING")
             (with_middlewares [untagged (Samples.announcing "first");
                                untagged (Samples.announcing "second")])
             _ [fun _ => console_error [VString "first"];
                fun _ => console_error [VString "second"]] eq_refl).
  - reflexivity.
  - repeat constructor; apply announcing_runs_then_next.
Defined.

(** X13: a middleware that does not call its continuation ends the chain.
    When the middlewares before it hand the action on and it returns
    without calling what it is given, neither the middlewares registered
    after it nor [next] run: the outcome is the same whatever they are.
    The action then never reaches the store. *)
Theorem pluginMiddleware_stops_at_swallower store action w pre effects m post
    (halt : value -> eff value) :
  middlewares (rt w) = Some (pre ++ m :: post) ->
  Forall2 (runs_then_next store) pre effects ->
  (forall k a c, fn m store k a c = halt a c) ->
  forall next,
    pluginMiddleware store next action w
    = (do_ liftc (fold_right (fun effect k => do_ effect action ;; k)
                    (halt action) effects) ;;
       ret VUndefined) w.
Proof.
  intros Hms Hall Hhalt next. unfold pluginMiddleware.
  erewrite bind_Return by reflexivity. cbv beta. rewrite Hms.
  unfold bind, liftc.
  rewrite (nextMiddleware_passing store next pre effects (m :: post) Hall action (out w)).
  assert (Hfold : forall c,
            fold_right (fun effect k => do_ effect action ;; k)
              (nextMiddleware store next (m :: post) action) effects c
            = fold_right (fun effect k => do_ effect action ;; k)
                (halt action) effects c).
  { clear - Hhalt. induction effects as [|effect effects IH]; intros c; simpl.
    - apply Hhalt.
    - unfold bind. destruct (effect action c) as [[[]|e] c1]; [apply IH | reflexivity]. }
  now rewrite Hfold.
Qed.

Lemma pluginMiddleware_stops_at_swallower_witness :
  pluginMiddleware Samples.store (fun a => do_ console_error [VString "store"] ;; ret a)
    (VString "PING")
    (with_middlewares [untagged (Samples.announcing "first");
                       untagged (fun _ _ _ => ret VNull);
                       untagged (Samples.announcing "third")])
  = (Return VUndefined,
     {| rt := rt (with_middlewares [untagged (Samples.announcing "first");
                                    untagged (fun _ _ _ => ret VNull);
                                    untagged (Samples.announcing "third")]);
        out := [[VString "first"]] |}).
Proof.
  rewrite (pluginMiddleware_stops_at_swallower Samples.store (VString "PING")
             (with_middlewares [untagged (Samples.announcing "first");
                                untagged (fun _ _ _ => ret VNull);
                                untagged (Samples.announcing "third")])
             [untagged (Samples.announcing "first")]
             [fun _ => console_error [VString "first"]]
             (untagged (fun _ _ _ => ret VNull))
             [untagged (Samples.announcing "third")]
             (fun _ => ret VNull) eq_refl).
  - reflexivity.
  - repeat constructor; apply announcing_runs_then_next.
  - reflexivity.
Defined.

(** ** getConstants: every transform, in order *)

Lemma transforms_append ts entries :
  Forall2 appends_listener ts entries ->
  forall props ls c,
    assoc "listeners" props = Some (VArray ls) ->
    exists props' c',
      reduce (fun acc reducer => fn reducer acc) ts (VObject props) c
      = (Return (VObject props'), c')
      /\ assoc "listeners" props' = Some (VArray (ls ++ entries)).
Proof.
  induction 1 as [|t entry ts entries Ht _ IH]; intros props ls c Hls.
  - exists props, c. split; [reflexivity | now rewrite app_nil_r].
  - destruct (Ht props ls c Hls) as (props1 & c1 & Hrun & Hls1).
    destruct (IH props1 (ls ++ [entry]) c1 Hls1) as (props2 & c2 & Hrest & Hls2).
    exists props2, c2. split.
    + simpl. erewrite bind_Return by exact Hrun. exact Hrest.
    + rewrite Hls2. now rewrite <- app_assoc.
Qed.

(** X14: the sockets listeners grow by one entry per transform, in the
    order of the registry.  When each registered transform appends its own
    entry, the [listeners] of [getConstants("sockets")] is the default
    entry [{event: "new block", actionType: SET_CHAIN_TIP}] followed by
    the entries of the transforms, first registered first. *)
Theorem getConstants_appends_in_order i w transforms entries :
  extendConstants (rt w) !! "sockets" = Some transforms ->
  Forall2 appends_listener transforms entries ->
  exists props c',
    getConstants i "sockets" w = (Return (VObject props), {| rt := rt w; out := c' |})
    /\ assoc "listeners" props
       = Some (VArray (Sockets.listener "new block" (Constants.SET_CHAIN_TIP i) :: entries)).
Proof.
  intros Hreg Hall.
  destruct (transforms_append transforms entries Hall
              [("CONNECT_SOCKET", VString Sockets.CONNECT_SOCKET);
               ("DISCONNECT_SOCKET", VString Sockets.DISCONNECT_SOCKET);
               ("listeners", VArray (Sockets.listeners (Constants.SET_CHAIN_TIP i)))]
              (Sockets.listeners (Constants.SET_CHAIN_TIP i)) (out w) eq_refl)
    as (props & c' & Hrun & Hls).
  exists props, c'. split; [|exact Hls].
  unfold getConstants. erewrite bind_Return by reflexivity. cbv beta. rewrite (lookup_key_Own _ _ _ Hreg).
  apply liftc_run. exact Hrun.
Qed.

Lemma getConstants_appends_in_order_witness :
  exists props c',
    getConstants Samples.imports "sockets"
      (with_sockets [untagged (Samples.appending (Sockets.listener "a" "A"));
                     untagged (Samples.appending (Sockets.listener "b" "B"))])
    = (Return (VObject props),
       {| rt := rt (with_sockets [untagged (Samples.appending (Sockets.listener "a" "A"));
                                  untagged (Samples.appending (Sockets.listener "b" "B"))]);
          out := c' |})
    /\ assoc "listeners" props
       = Some (VArray [Sockets.listener "new block" "SET_CHAIN_TIP";
                       Sockets.listener "a" "A"; Sockets.listener "b" "B"]).
Proof.
  apply (getConstants_appends_in_order Samples.imports
           (with_sockets [untagged (Samples.appending (Sockets.listener "a" "A"));
                          untagged (Samples.appending (Sockets.listener "b" "B"))])
           [untagged (Samples.appending (Sockets.listener "a" "A"));
            untagged (Samples.appending (Sockets.listener "b" "B"))]
           [Sockets.listener "a" "A"; Sockets.listener "b" "B"]).
  - apply lookup_singleton_eq.
  - repeat constructor; apply appending_appends.
Defined.



(** ** decorateReducer: names, order and failures *)



(** X17: the decorator registered last has the last word, and nothing is
    caught.  With decorators [ds] followed by one that sets key [k] to
    [v], the decorated reducer returns an object whose [k] is [v] whenever
    the base reducer and the decorators [ds] return; and when the base
    reducer or one of [ds] throws, the decorated reducer throws the same
    value, without an error message of its own. *)
Theorem decorateReducer_last_decorator_wins Immutable (reducer : reducer_fn) name
    state action w ds d k v :
  reducersDecorators (rt w) !! name = Some (ds ++ [d]) ->
  sets_key d k v ->
  (forall s c1,
      (do init <- reducer state action ;;
       reduce (fun state_ reducer_ => fn reducer_ state_ action) ds (Immutable init)) (out w)
      = (Return s, c1) ->
      exists props c2,
        decorateReducer Immutable reducer name state action w
        = (Return (VObject props), {| rt := rt w; out := c2 |})
        /\ assoc k props = Some v)
  /\ (forall e c1,
        (do init <- reducer state action ;;
         reduce (fun state_ reducer_ => fn reducer_ state_ action) ds (Immutable init)) (out w)
        = (Throw e, c1) ->
        decorateReducer Immutable reducer name state action w
        = (Throw e, {| rt := rt w; out := c1 |})).
Proof.
  intros Hreg Hsets. split.
  - intros s c1 Hrun.
    destruct (Hsets s action c1) as (props & c2 & Hlast & Hk).
    exists props, c2. split; [|exact Hk].
    unfold decorateReducer. erewrite bind_Return by reflexivity. cbv beta. rewrite (lookup_key_Own _ _ _ Hreg).
    apply liftc_run. unfold bind in *.
    destruct (reducer state action (out w)) as [[init|e] c0]; [|discriminate].
    rewrite reduce_app. unfold bind. rewrite Hrun. simpl. unfold bind.
    rewrite Hlast. reflexivity.
  - intros e c1 Hrun.
    unfold decorateReducer. erewrite bind_Return by reflexivity. cbv beta. rewrite (lookup_key_Own _ _ _ Hreg).
    apply liftc_run. unfold bind in *.
    destruct (reducer state action (out w)) as [[init|e0] c0]; [|exact Hrun].
    rewrite reduce_app. unfold bind. now rewrite Hrun.
Qed.

Lemma decorateReducer_last_decorator_wins_witness :
  exists props c2,
    decorateReducer (fun v => v) (fun _ _ => ret (VObject [("height", VString "base")]))
      "nodeReducer" VUndefined (VObject [])
      (with_reducers "nodeReducer"
         [untagged (Samples.setting "height" (VString "first"));
          untagged (Samples.setting "height" (VString "last"))])
    = (Return (VObject props),
       {| rt := rt (with_reducers "nodeReducer"
                      [untagged (Samples.setting "height" (VString "first"));
                       untagged (Samples.setting "height" (VString "last"))]);
          out := c2 |})
    /\ assoc "height" props = Some (VString "last").
Proof.
  refine (proj1 (decorateReducer_last_decorator_wins (fun v => v)
                   (fun _ _ => ret (VObject [("height", VString "base")]))
                   "nodeReducer" VUndefined (VObject [])
                   (with_reducers "nodeReducer"
                      [untagged (Samples.setting "height" (VString "first"));
                       untagged (Samples.setting "height" (VString "last"))])
                   [untagged (Samples.setting "height" (VString "first"))]
                   (untagged (Samples.setting "height" (VString "last")))
                   "height" (VString "last") _ _)
            _ _ eq_refl).
  - apply lookup_singleton_eq.
  - apply setting_sets_key.
Defined.

(** ** getPanelProps without decorators *)

Lemma assoc_set_fresh k v props :
  k ∉ props.*1 -> assoc_set k v props = props ++ [(k, v)].
Proof.
  induction props as [|[k' v'] props IH]; intros Hk; [reflexivity|].
  simpl in *. apply not_elem_of_cons in Hk as [Hne Hk].
  apply String.eqb_neq in Hne. rewrite Hne. now rewrite IH.
Qed.

Lemma assign_all_fresh props : forall acc,
  NoDup (acc.*1 ++ props.*1) ->
  fold_left (fun acc kv => assoc_set (fst kv) (snd kv) acc) props acc = acc ++ props.
Proof.
  induction props as [|[k v] props IH]; intros acc Hnd; simpl.
  - now rewrite app_nil_r.
  - rewrite assoc_set_fresh.
    + rewrite IH; [now rewrite <- app_assoc|].
      rewrite fmap_app. simpl. now rewrite <- app_assoc.
    + simpl in Hnd. apply NoDup_app in Hnd as (_ & Hdisj & _).
      intros Hin. apply (Hdisj k Hin). now left.
Qed.

Lemma object_assign_fresh_object props :
  NoDup props.*1 -> object_assign_fresh (VObject props) = VObject props.
Proof.
  intros Hnd. unfold object_assign_fresh. simpl. now rewrite assign_all_fresh.
Qed.

(** X18: with no panel-props decorator registered, [getPanelProps] hands
    back the properties of [props] and nothing of [parentProps]: the
    empty object when [props] is left out, and for an object an object
    with the same properties in the same order.  The console is not
    written to. *)
Theorem getPanelProps_without_decorators propsReducerCallback parentProps w :
  propsDecorators (rt w) !! "getPanelProps" = Some [] ->
  getPanelProps propsReducerCallback parentProps VUndefined w = (Return (VObject []), w)
  /\ (forall props,
        NoDup props.*1 ->
        getPanelProps propsReducerCallback parentProps (VObject props) w
        = (Return (VObject props), w)).
Proof.
  intros Hreg. split.
  - unfold getPanelProps, getProps. erewrite bind_Return by reflexivity. cbv beta.
    rewrite (lookup_key_Own _ _ _ Hreg). destruct w; reflexivity.
  - intros props Hnd.
    unfold getPanelProps, getProps. erewrite bind_Return by reflexivity. cbv beta.
    rewrite (lookup_key_Own _ _ _ Hreg). cbn [default_props].
    rewrite object_assign_fresh_object by exact Hnd.
    destruct w; reflexivity.
Qed.

Lemma getPanelProps_without_decorators_witness :
  getPanelProps (fun _ _ _ acc _ => ret acc) (VObject [("theme", VString "dark")])
    (VObject [("title", VString "Panel"); ("order", VNumber 1%float)])
    {| rt := reset initial; out := [] |}
  = (Return (VObject [("title", VString "Panel"); ("order", VNumber 1%float)]),
     {| rt := reset initial; out := [] |}).
Proof.
  refine (proj2 (getPanelProps_without_decorators (fun _ _ _ acc _ => ret acc)
                   (VObject [("theme", VString "dark")])
                   {| rt := reset initial; out := [] |} _) _ _).
  - apply lookup_singleton_eq.
  - simpl. repeat constructor; rewrite ?elem_of_cons, ?elem_of_nil; intuition discriminate.
Defined.

(** ** Before the first loadPlugins *)

(** X19: nothing but [initialMetadata] can be used before [loadPlugins]
    has run once.  On the page as the module leaves it, [getConstants],
    [pluginMiddleware], [getPanelProps], [getRouteProps], a decorated
    reducer and the two functions that [connect] derives all throw,
    whatever their arguments.  They do so before any function they are
    given is called, and change nothing; the one exception is a reducer
    decorated under a name that every object inherits, such as
    [constructor], whose base reducer runs before the call throws.
    [initialMetadata] returns the empty metadata. *)
Theorem nothing_works_before_load i store next propsReducerCallback Immutable
    (reducer : reducer_fn) stateFn dispatchFn name parentProps props fnArgs
    state action c :
  let w := {| rt := initial; out := c |} in
  (exists e, getConstants i name w = (Throw e, w))
  /\ (exists e, pluginMiddleware store next action w = (Throw e, w))
  /\ (exists e, getPanelProps propsReducerCallback parentProps props w = (Throw e, w))
  /\ (exists e, getRouteProps propsReducerCallback name parentProps props fnArgs w
                = (Throw e, w))
  /\ (exists e w',
        decorateReducer Immutable reducer name state action w = (Throw e, w')
        /\ (inherited name = false -> w' = w))
  /\ (exists e, connect_state stateFn name state w = (Throw e, w))
  /\ (exists e, connect_dispatch dispatchFn name state w = (Throw e, w))
  /\ initialMetadata w = (Return ∅, w).
Proof.
  intros w. subst w.
  repeat match goal with |- _ /\ _ => split end.
  - unfold getConstants. erewrite bind_Return by reflexivity. cbv beta.
    cbn [rt initial extendConstants]. unfold lookup_key. rewrite lookup_empty.
    destruct (inherited name); eexists; reflexivity.
  - eexists. reflexivity.
  - eexists. unfold getPanelProps, getProps. erewrite bind_Return by reflexivity. cbv beta.
    cbn [rt initial propsDecorators]. unfold lookup_key. rewrite lookup_empty.
    reflexivity.
  - eexists. reflexivity.
  - unfold decorateReducer. erewrite bind_Return by reflexivity. cbv beta.
    cbn [rt initial reducersDecorators]. unfold lookup_key. rewrite lookup_empty.
    destruct (inherited name).
    + unfold liftc, bind, throw. cbn [out rt].
      destruct (reducer state action c) as [[v|e] c']; eexists _, _;
        (split; [reflexivity | discriminate]).
    + eexists _, _. split; reflexivity.
  - eexists. reflexivity.
  - eexists. reflexivity.
  - reflexivity.
Qed.

(* ===================================================================== *)
(** * Properties of decorated components                                  *)
(* ===================================================================== *)

Import Decoration.

Lemma bind_Return_inv {S A B} (c : M S A) (k : A -> M S B) s v s' :
  bind c k s = (Return v, s') ->
  exists a s1, c s = (Return a, s1) /\ k a s1 = (Return v, s').
Proof.
  unfold bind. destruct (c s) as [[a|e] s1]; [eauto | discriminate].
Qed.

Lemma reduce_invariant {S A B} (P : A -> Prop) (step : A -> B -> M S A) l :
  (forall a b s a' s', P a -> step a b s = (Return a', s') -> P a') ->
  forall init s v s',
    P init -> reduce step l init s = (Return v, s') -> P v.
Proof.
  intros Hstep. induction l as [|x l IH]; intros init s v s' Hinit Hrun.
  - injection Hrun as <- _. exact Hinit.
  - simpl in Hrun. apply bind_Return_inv in Hrun as (a & s1 & Hx & Hrest).
    eapply IH; [|exact Hrest]. eapply Hstep; eassumption.
Qed.

Lemma set_property_truthy x key v y :
  set_property x key v = Return y -> truthy y = true.
Proof. destruct x; simpl; intros [= <-]; reflexivity. Qed.

Section DecorationFacts.

Variable decorator_export : Plugin.t -> option (value -> value -> eff value).
Variable decorate_export : Plugin.t -> string -> option (value -> value -> eff value).
Variable helpers : value.
Variable PropTypes_func : value.
Variable DecoratedComponent : value -> value.

Lemma decorate_with_truthy name component_ plugin w v w' :
  truthy component_ = true ->
  decorate_with decorator_export decorate_export helpers name component_ plugin w
  = (Return v, w') ->
  truthy v = true.
Proof.
  intros Hc. unfold decorate_with.
  destruct (plugin_get _ _ _ _) as [decorator|]; [|now intros [= <- _]].
  cbv zeta. unfold try_catch.
  match goal with |- context [match ?body w with _ => _ end] =>
    destruct (body w) as [[a|e] s1] eqn:Hbody end.
  - intros [= <- _].
    apply bind_Return_inv in Hbody as (r & s2 & _ & Hbody).
    apply bind_Return_inv in Hbody as (u & s3 & _ & Hbody).
    apply bind_Return_inv in Hbody as (c__ & s4 & _ & Hbody).
    unfold of_outcome in Hbody. injection Hbody as Hset _.
    eapply set_property_truthy; exact Hset.
  - intros Hh. apply bind_Return_inv in Hh as (stack & s2 & _ & Hh).
    apply bind_Return_inv in Hh as (u & s3 & _ & Hh).
    now injection Hh as <- _.
Qed.

Lemma cached_insert r name v :
  cached (set_decorated (<[ name := v ]> (decorated r)) r) name = v.
Proof.
  unfold cached, lookup_key. cbn [decorated set_decorated].
  now rewrite lookup_insert_eq.
Qed.

Lemma getDecorated_hit Component name w v :
  cached (rt w) name = v ->
  truthy v = true ->
  getDecorated decorator_export decorate_export helpers PropTypes_func
    DecoratedComponent Component name w
  = (Return v, w).
Proof.
  intros Hv Ht. unfold getDecorated.
  erewrite bind_Return by reflexivity. cbv beta.
  unfold not_cached. rewrite Hv, Ht. simpl negb. cbv iota.
  erewrite bind_Return by reflexivity. cbv beta.
  erewrite bind_Return by reflexivity. cbv beta.
  rewrite Hv. reflexivity.
Qed.

Lemma getDecorated_Return_cached Component name w v w1 :
  getDecorated decorator_export decorate_export helpers PropTypes_func
    DecoratedComponent Component name w
  = (Return v, w1) ->
  cached (rt w1) name = v /\ truthy v = true.
Proof.
  unfold getDecorated. erewrite bind_Return by reflexivity. cbv beta.
  unfold not_cached.
  destruct (truthy (cached (rt w) name)) eqn:Ht0; simpl negb; cbv iota.
  - erewrite bind_Return by reflexivity. cbv beta.
    erewrite bind_Return by reflexivity. cbv beta.
    intros [= <- <-]. now split.
  - intros Hrun. apply bind_Return_inv in Hrun as ([] & s1 & Hmiss & Hrun).
    apply bind_Return_inv in Hmiss as (exposed & s2 & Hexp & Hmiss).
    apply bind_Return_inv in Hmiss as (c0 & s3 & Hc0 & Hmiss).
    destruct (plugins (rt w)) as [ps|]; [|discriminate].
    apply bind_Return_inv in Hmiss as (c1 & s4 & Hred & Hassign).
    injection Hassign as <-.
    erewrite bind_Return in Hrun by reflexivity. cbv beta in Hrun.
    cbn [rt] in Hrun. rewrite cached_insert in Hrun.
    injection Hrun as <- <-. cbn [rt].
    rewrite cached_insert. split; [reflexivity|].
    eapply (reduce_invariant (fun c => truthy c = true)); [| |exact Hred].
    + intros a b s a' s' Ha Hstep. eapply decorate_with_truthy; eassumption.
    + injection Hc0 as Hc0 _. eapply set_property_truthy; exact Hc0.
Qed.

End DecorationFacts.

Section DecorationProperties.

Variable decorator_export : Plugin.t -> option (value -> value -> eff value).
Variable decorate_export : Plugin.t -> string -> option (value -> value -> eff value).
Variable helpers : value.
Variable PropTypes_func : value.
Variable DecoratedComponent : value -> value.

(** X20: a component name is decorated once.  After [getDecorated] has
    returned a component for a name, every later call for that name
    returns the same component and touches nothing, whatever component it
    is given: no plugin decorator runs again. *)
Theorem getDecorated_decorates_once Component name w v w1 :
  getDecorated decorator_export decorate_export helpers PropTypes_func
    DecoratedComponent Component name w
  = (Return v, w1) ->
  forall Component',
    getDecorated decorator_export decorate_export helpers PropTypes_func
      DecoratedComponent Component' name w1
    = (Return v, w1).
Proof.
  intros Hrun Component'.
  apply getDecorated_Return_cached in Hrun as [Hv Ht].
  now apply getDecorated_hit.
Qed.


(** X22: a plugin whose decorator fails is passed over.  For a plugin
    under whose name [pluginDecorators] finds nothing, neither an entry
    nor a member of [Object.prototype]: when its [decorate<Name>] export
    throws a string or a value whose [stack] can be read, or returns
    something that cannot carry a [displayName], the component stays as it
    was before that plugin, one error is logged under the plugin's name,
    and the loop goes on with the next plugin. *)
Theorem failing_decorator_is_skipped name component_ plugin f w :
  plugin_get decorator_export decorate_export (fn plugin) ("decorate" +:+ name)
  = Some (Callable f) ->
  lookup_key (pluginDecorators (rt w)) (template (_pluginName plugin)) = Missing ->
  (forall e c1 stack,
      f component_ helpers (out w) = (Throw e, c1) ->
      shown e = Return stack ->
      decorate_with decorator_export decorate_export helpers name component_ plugin w
      = (Return component_,
         {| rt := rt w;
            out := c1 ++ [[VString (decorating_message (_pluginName plugin)); stack]] |}))
  /\ (forall v c1 e,
        f component_ helpers (out w) = (Return v, c1) ->
        set_property v "displayName"
          (VString (template (_pluginName plugin) +:+ "(" +:+ name +:+ ")"))
        = Throw e ->
        exists stack,
          decorate_with decorator_export decorate_export helpers name component_ plugin w
          = (Return component_,
             {| rt := rt w;
                out := c1 ++ [[VString (decorating_message (_pluginName plugin)); stack]] |})).
Proof.
  intros Hget Hpd. split.
  - intros e c1 stack Hf Hshown.
    unfold decorate_with. rewrite Hget. cbv zeta.
    unfold try_catch, bind, read, liftc, of_outcome, call, ret, console_error.
    rewrite Hpd, Hf. cbn [out rt]. rewrite Hshown. reflexivity.
  - intros v c1 e Hf Hset.
    assert (Hshown : exists stack, shown e = Return stack).
    { destruct v; simpl in Hset; try discriminate;
        injection Hset as <-; eexists; reflexivity. }
    destruct Hshown as [stack Hshown]. exists stack.
    unfold decorate_with. rewrite Hget. cbv zeta.
    unfold try_catch, bind, read, liftc, of_outcome, call, ret, console_error.
    rewrite Hpd, Hf. cbn [out rt]. rewrite Hset, Hshown. reflexivity.
Qed.

(** X23: a plugin that other plugins decorate must export [decorator].
    When [pluginDecorators] has an entry under the name of a plugin and
    the plugin exports no [decorator], its [decorate<Name>] export is not
    called: the component stays as it was, and the one thing that happens
    is the error message, which carries the thrown string itself. *)
Theorem parent_without_decorator_is_skipped name component_ plugin decorator w children :
  plugin_get decorator_export decorate_export (fn plugin) ("decorate" +:+ name)
  = Some decorator ->
  pluginDecorators (rt w) !! template (_pluginName plugin) = Some children ->
  decorator_export (fn plugin) = None ->
  decorate_with decorator_export decorate_export helpers name component_ plugin w
  = (Return component_,
     {| rt := rt w;
        out := out w ++ [[VString (decorating_message (_pluginName plugin));
                          VString parent_message]] |}).
Proof.
  intros Hget Hpd Hparent.
  unfold decorate_with. rewrite Hget. cbv zeta.
  unfold try_catch, bind, read, liftc, of_outcome, throw, ret, console_error.
  rewrite (lookup_key_Own _ _ _ Hpd), Hparent. reflexivity.
Qed.

(** X24: a crash switches decoration off for the instance that caught it,
    not for the name.  After [componentDidCatch] the instance renders the
    undecorated component and no longer looks at the plugins, while the
    decorated component stays in the cache: an instance mounted afterwards
    renders the decorated component again. *)
Theorem crash_disables_one_instance Component name w v w1 error errorInfo this :
  getDecorated decorator_export decorate_export helpers PropTypes_func
    DecoratedComponent Component name w
  = (Return v, w1) ->
  exists this' w2,
    componentDidCatch name error errorInfo this w1 = (Return this', w2)
    /\ out w2 = out w1 ++ [[VString (crash_message name); error; errorInfo]]
    /\ render_Sub decorator_export decorate_export helpers PropTypes_func
         DecoratedComponent Component name this' w2
       = (Return Component, w2)
    /\ render_Sub decorator_export decorate_export helpers PropTypes_func
         DecoratedComponent Component name mounted w2
       = (Return v, w2).
Proof.
  intros Hrun. apply getDecorated_Return_cached in Hrun as [Hv Ht].
  eexists _, _. split; [reflexivity|]. split; [reflexivity|]. split; [reflexivity|].
  unfold render_Sub. cbn [hasError mounted].
  apply getDecorated_hit; [exact Hv | exact Ht].
Qed.

End DecorationProperties.

(** X25: the [ref] callback of the exposed component never throws, and it
    never hands the instance over.  Whatever React calls it with, an
    [onDecorated] prop that is a function is called with [undefined]; what
    the prop throws, or the error of calling a prop that is no function,
    is logged after [Plugin error:], and the callback returns. *)
Theorem ref_callback_never_throws onDecorated instance c :
  exists c',
    ref_callback onDecorated instance c = (Return tt, c')
    /\ (onDecorated = None -> c' = c)
    /\ (forall f, onDecorated = Some (Callable f) ->
          c' = match f VUndefined c with
               | (Return _, c1) => c1
               | (Throw e, c1) => c1 ++ [[VString "Plugin error:"; e]]
               end)
    /\ (forall v, onDecorated = Some (NotCallable v) ->
          exists e, c' = c ++ [[VString "Plugin error:"; e]]).
Proof.
  unfold ref_callback, onRef.
  destruct onDecorated as [[f|v]|].
  - unfold try_catch, bind, ret, console_error.
    destruct (f VUndefined c) as [[r|e] c1] eqn:Hf.
    + exists c1. split; [reflexivity|]. split; [discriminate|].
      split; [|discriminate]. intros f' [= <-]. now rewrite Hf.
    + eexists. split; [reflexivity|]. split; [discriminate|].
      split; [|discriminate]. intros f' [= <-]. now rewrite Hf.
  - eexists. split; [reflexivity|]. split; [discriminate|].
    split; [discriminate|]. intros v' _. eexists. reflexivity.
  - exists c. split; [reflexivity|]. split; [reflexivity|]. split; discriminate.
Qed.

Lemma getDecorated_decorates_once_witness :
  exists v w1,
    getDecorated sample_decorator sample_decorate (VObject []) (VFunction "PropTypes.func")
      sample_class (VFunction "Footer") "Footer"
      (with_plugins [loaded_sample "child" "parent"])
    = (Return v, w1)
    /\ getDecorated sample_decorator sample_decorate (VObject []) (VFunction "PropTypes.func")
         sample_class (VFunction "Header") "Footer" w1
       = (Return v, w1).
Proof.
  eexists _, _. split; [reflexivity|].
  apply (getDecorated_decorates_once sample_decorator sample_decorate (VObject [])
           (VFunction "PropTypes.func") sample_class (VFunction "Footer") "Footer"
           (with_plugins [loaded_sample "child" "parent"])).
  reflexivity.
Defined.


Lemma failing_decorator_is_skipped_witness :
  decorate_with sample_decorator sample_decorate (VObject []) "Footer"
    (VFunction "Footer") (loaded_sample "orphan" "absent") (with_plugins [])
  = (Return (VFunction "Footer"),
     {| rt := rt (with_plugins []);
        out := [[VString "Plugin error when decorating component with orphan:";
                 VString "Error: boom at mapAppState"]] |}).
Proof.
  apply (proj1 (failing_decorator_is_skipped sample_decorator sample_decorate (VObject [])
                  "Footer" (VFunction "Footer") (loaded_sample "orphan" "absent")
                  (failing Samples.boom) (with_plugins []) eq_refl eq_refl)
           Samples.boom [] (VString "Error: boom at mapAppState") eq_refl eq_refl).
Defined.

Lemma parent_without_decorator_is_skipped_witness :
  decorate_with sample_decorator sample_decorate (VObject []) "Footer"
    (VFunction "Footer") (loaded_sample "child" "parent")
    (with_child_of "child" [loaded_sample "child" "parent"])
  = (Return (VFunction "Footer"),
     {| rt := rt (with_child_of "child" [loaded_sample "child" "parent"]);
        out := [[VString "Plugin error when decorating component with child:";
                 VString parent_message]] |}).
Proof.
  apply (parent_without_decorator_is_skipped sample_decorator sample_decorate (VObject [])
           "Footer" (VFunction "Footer") (loaded_sample "child" "parent")
           (Callable (wrapping "child"))
           (with_child_of "child" [loaded_sample "child" "parent"])
           [VFunction "child decorator"] eq_refl eq_refl eq_refl).
Defined.

Lemma crash_disables_one_instance_witness :
  exists v w1 this' w2,
    getDecorated sample_decorator sample_decorate (VObject []) (VFunction "PropTypes.func")
      sample_class (VFunction "Footer") "Footer"
      (with_plugins [loaded_sample "child" "parent"])
    = (Return v, w1)
    /\ componentDidCatch "Footer" Samples.boom (VObject []) mounted w1 = (Return this', w2)
    /\ render_Sub sample_decorator sample_decorate (VObject []) (VFunction "PropTypes.func")
         sample_class (VFunction "Footer") "Footer" this' w2
       = (Return (VFunction "Footer"), w2)
    /\ render_Sub sample_decorator sample_decorate (VObject []) (VFunction "PropTypes.func")
         sample_class (VFunction "Footer") "Footer" mounted w2
       = (Return v, w2).
Proof.
  destruct (crash_disables_one_instance sample_decorator sample_decorate (VObject [])
              (VFunction "PropTypes.func") sample_class (VFunction "Footer") "Footer"
              (with_plugins [loaded_sample "child" "parent"]) _ _
              Samples.boom (VObject []) mounted eq_refl)
    as (this' & w2 & Hcatch & _ & Hraw & Hnew).
  eexists _, _, this', w2. split; [reflexivity|].
  split; [exact Hcatch|]. split; [exact Hraw | exact Hnew].
Defined.

(* ===================================================================== *)
(** * Footer                                                              *)
(* ===================================================================== *)

(** X26: the footer always shows the percentage with two decimals.
    Whenever [progress * 100] is a finite number below [10^21] in
    magnitude, the text of the progress column is an optional minus sign,
    one or more digits, a point, exactly two digits, and [% synced]. *)
Theorem sync_text_two_decimals style number_to_string string_to_number
    (p : Footer.props style) :
  displayable (Footer.to_number string_to_number (Footer.progress_value style p) * 100)%float ->
  exists sign whole frac,
    Footer.sync_text style number_to_string string_to_number p
    = sign +:+ whole +:+ "." +:+ frac +:+ "% synced"
    /\ (sign = EmptyString \/ sign = "-")
    /\ all_digits whole = true /\ 1 <= String.length whole
    /\ all_digits frac = true /\ String.length frac = 2.
Proof.
  intros Hx. rewrite sync_text_toFixed. unfold displayable in Hx. unfold Footer.toFixed.
  destruct (Prim2SF _) as [s0| | |s m e]; try contradiction.
  - destruct (fixed_digits_two 0) as (whole & frac & -> & Hw).
    exists EmptyString, whole, frac. split; [|split; [now left | exact Hw]].
    change (EmptyString +:+ whole +:+ "." +:+ frac +:+ "% synced")
      with (whole +:+ "." +:+ frac +:+ "% synced").
    now rewrite !string_app_assoc'.
  - rewrite Hx.
    destruct (fixed_digits_two (Footer.scaled_nearest m e 2)) as (whole & frac & -> & Hw).
    exists (if s then "-" else EmptyString), whole, frac.
    split; [|split; [destruct s; auto | exact Hw]].
    now rewrite !string_app_assoc'.
Qed.

Lemma sync_text_two_decimals_witness :
  exists sign whole frac,
    Footer.sync_text unit (fun _ => EmptyString) (fun _ => 0%float)
      {| Footer.theme := {| Footer.container := tt; Footer.text := tt; Footer.progress := tt |};
         Footer.version := "1.0.0";
         Footer.progress_value := Footer.ProgressNumber 0.12345%float |}
    = sign +:+ whole +:+ "." +:+ frac +:+ "% synced"
    /\ (sign = EmptyString \/ sign = "-")
    /\ all_digits whole = true /\ 1 <= String.length whole
    /\ all_digits frac = true /\ String.length frac = 2.
Proof.
  apply (sync_text_two_decimals unit (fun _ => EmptyString) (fun _ => 0%float)).
  vm_compute. reflexivity.
Defined.

(* ===================================================================== *)
(** * Package names and metadata names                                    *)
(* ===================================================================== *)










(* ===================================================================== *)
(** * Components that no plugin decorates                                 *)
(* ===================================================================== *)

Lemma decorate_with_no_export decorator_export decorate_export helpers name ps :
  Forall (fun plugin =>
            plugin_get decorator_export decorate_export (fn plugin) ("decorate" +:+ name)
            = None) ps ->
  forall component_ w,
    reduce (decorate_with decorator_export decorate_export helpers name) ps component_ w
    = (Return component_, w).
Proof.
  induction 1 as [|plugin ps Hp _ IH]; intros component_ w; [reflexivity|].
  simpl. unfold bind. unfold decorate_with at 1. rewrite Hp. apply IH.
Qed.

(** X29: a component that no loaded plugin decorates is still wrapped and
    cached.  When no loaded plugin has a [decorate<Name>] export for the
    name and the cache finds nothing under it, neither an entry nor a
    member of [Object.prototype], [getDecorated] returns the class that
    [exposeDecorated] makes of the component, with the display name
    [exposeDecorated(<name>)], stores it in the cache under the name, and
    logs nothing. *)
Theorem undecorated_component_is_exposed decorator_export decorate_export helpers
    PropTypes_func DecoratedComponent Component name w ps exposed component_ :
  plugins (rt w) = Some ps ->
  lookup_key (decorated (rt w)) name = Missing ->
  Forall (fun plugin =>
            plugin_get decorator_export decorate_export (fn plugin) ("decorate" +:+ name)
            = None) ps ->
  exposeDecorated PropTypes_func DecoratedComponent Component = Return exposed ->
  set_property exposed "displayName" (VString ("exposeDecorated(" +:+ name +:+ ")"))
  = Return component_ ->
  getDecorated decorator_export decorate_export helpers PropTypes_func
    DecoratedComponent Component name w
  = (Return component_,
     {| rt := set_decorated (<[ name := component_ ]> (decorated (rt w))) (rt w);
        out := out w |}).
Proof.
  intros Hps Hmiss Hnone Hexp Hset.
  unfold getDecorated. erewrite bind_Return by reflexivity. cbv beta.
  unfold not_cached, cached at 1. rewrite Hmiss, Hexp, Hps. simpl negb. cbv iota.
  unfold bind at 1. unfold bind at 1. unfold of_outcome at 1.
  unfold bind at 1. unfold of_outcome at 1. rewrite Hset.
  unfold bind at 1. rewrite (decorate_with_no_export _ _ _ _ _ Hnone).
  unfold assign, modify, read, ret, bind. cbn [rt out].
  now rewrite cached_insert.
Qed.

Lemma undecorated_component_is_exposed_witness :
  getDecorated sample_decorator sample_decorate (VObject []) (VFunction "PropTypes.func")
    sample_class (VFunction "Header") "Header"
    (with_plugins [loaded_sample "child" "parent"])
  = (Return (VObject [("wraps", VFunction "Header");
                      ("propTypes", VObject [("onDecorated", VFunction "PropTypes.func")]);
                      ("displayName", VString "exposeDecorated(Header)")]),
     {| rt := set_decorated
                {[ "Header" :=
                     VObject [("wraps", VFunction "Header");
                              ("propTypes",
                               VObject [("onDecorated", VFunction "PropTypes.func")]);
                              ("displayName", VString "exposeDecorated(Header)")] ]}
                (rt (with_plugins [loaded_sample "child" "parent"]));
        out := [] |}).
Proof.
  apply (undecorated_component_is_exposed sample_decorator sample_decorate (VObject [])
           (VFunction "PropTypes.func") sample_class (VFunction "Header") "Header"
           (with_plugins [loaded_sample "child" "parent"])
           [loaded_sample "child" "parent"]
           (VObject [("wraps", VFunction "Header");
                     ("propTypes", VObject [("onDecorated", VFunction "PropTypes.func")])])).
  - reflexivity.
  - reflexivity.
  - repeat constructor.
  - reflexivity.
  - reflexivity.
Defined.
